(** * Balance ledger service: customers, top-up and spend transactions

    A shallow embedding of [main.py]: the customer documents and the counter
    document kept in the document store, the transaction bodies of the
    create, top-up and spend endpoints, and the identifier allocator.

    Monetary fields are Python [float]s, that is IEEE-754 binary64 numbers;
    they are modelled by Rocq's primitive floats, whose operations are the
    same binary64 operations.  Python [int]s are [Z]; documents are finite
    maps from field names to values. *)

From Stdlib Require Import ZArith Lia Floats Zpower Sorted.
From stdpp Require Import base option list gmap strings pretty.

Open Scope Z_scope.

(** ** Documents and the store *)

(** A field of a customer document: a string or a double. *)
Inductive value :=
  | VStr (s : string)
  | VNum (x : float).

(** The two collections the service uses.  Documents of [customers] map a
    field name to a [value]; documents of [counters] hold integers.  A
    document is keyed by its path below its collection: one that lies
    directly in the collection by its identifier, a nested one by the
    elements of its path, joined by "/". *)
Record store := Store {
  customers : gmap string (gmap string value);
  counters : gmap string (gmap string Z)
}.

Definition empty_store : store := Store ∅ ∅.

(** A write buffered by a transaction: [set] replaces the document, [update]
    overwrites the listed fields of a document that must exist. *)
Inductive write :=
  | SetCustomer (id : string) (data : gmap string value)
  | UpdateCustomer (id : string) (data : gmap string value)
  | SetCounter (id : string) (data : gmap string Z)
  | UpdateCounter (id : string) (data : gmap string Z).

Definition apply_write (s : store) (w : write) : option store :=
  match w with
  | SetCustomer id data =>
      Some (Store (<[id := data]> (customers s)) (counters s))
  | UpdateCustomer id data =>
      match customers s !! id with
      | Some old => Some (Store (<[id := data ∪ old]> (customers s)) (counters s))
      | None => None
      end
  | SetCounter id data =>
      Some (Store (customers s) (<[id := data]> (counters s)))
  | UpdateCounter id data =>
      match counters s !! id with
      | Some old => Some (Store (customers s) (<[id := data ∪ old]> (counters s)))
      | None => None
      end
  end.

(** The writes of one commit are applied in the order they were buffered;
    the commit is all or nothing. *)
Fixpoint apply_writes (s : store) (ws : list write) : option store :=
  match ws with
  | [] => Some s
  | w :: ws' =>
      match apply_write s w with
      | Some s' => apply_writes s' ws'
      | None => None
      end
  end.

(** ** Exceptions and store round trips *)

Inductive exn :=
  | HTTPException (status_code : Z) (detail : string)
  | KeyError (key : string)
  | TypeError
  | ValidationError
  | ReadAfterWriteError
  | NotFound
  | ValueError.

Inductive outcome (A : Type) :=
  | Ok (a : A)
  | Raise (e : exn).
Arguments Ok {A} a.
Arguments Raise {A} e.

(** What goes over the wire to the store. *)
Inductive event :=
  | BeginTransaction
  | ReadCustomer (id : string)
  | ReadCounter (id : string)
  | CommitTransaction (ws : list write)
  | CommitRefused (ws : list write)
  | RollbackTransaction
  | DeleteCustomer (id : string).

(** ** Transaction bodies

    A transaction body reads from the snapshot taken when the transaction
    began and buffers its writes; nothing reaches the store before the
    commit. *)
Record txn := Txn {
  snapshot : store;
  round_trips : list event;
  pending : list write
}.

Definition tx (A : Type) : Type := txn → outcome A * txn.

Global Instance tx_ret : MRet tx := λ A a t, (Ok a, t).
Global Instance tx_bind : MBind tx := λ A B f m t,
  match m t with
  | (Ok a, t') => f a t'
  | (Raise e, t') => (Raise e, t')
  end.

Definition raise {A} (e : exn) : tx A := λ t, (Raise e, t).

(** [doc_ref.get(transaction=transaction)]: a read inside a transaction is
    refused once the transaction has buffered a write. *)
Definition get_customer (id : string) : tx (option (gmap string value)) := λ t,
  match pending t with
  | [] => (Ok (customers (snapshot t) !! id),
           Txn (snapshot t) (round_trips t ++ [ReadCustomer id]) (pending t))
  | _ :: _ => (Raise ReadAfterWriteError, t)
  end.

Definition get_counter (id : string) : tx (option (gmap string Z)) := λ t,
  match pending t with
  | [] => (Ok (counters (snapshot t) !! id),
           Txn (snapshot t) (round_trips t ++ [ReadCounter id]) (pending t))
  | _ :: _ => (Raise ReadAfterWriteError, t)
  end.

(** The character "/". *)
Definition slash : Ascii.ascii := Ascii.ascii_of_nat 47.

(** [s.split("/")] *)
Fixpoint split_path (s : string) : list string :=
  match s with
  | EmptyString => [EmptyString]
  | String c s' =>
      if Ascii.eqb c slash then EmptyString :: split_path s'
      else
        match split_path s' with
        | [] => [String c EmptyString]
        | element :: elements => String c element :: elements
        end
  end.

(** [db.collection('customers').document(document_id)]: the client joins the
    path of the collection and the identifier with "/" and splits the result
    at every "/"; a document path must have an even number of elements.  The
    reference it returns is the key of the document. *)
Definition valid_path (document_id : string) : bool :=
  let path := "customers" :: split_path document_id in
  Nat.even (length path).

Definition document (document_id : string) : tx string :=
  if valid_path document_id then mret document_id else raise ValueError.

(** A document that lies directly in the collection: its identifier is the
    only element of its path below the collection. *)
Definition direct_child (document_id : string) : bool :=
  Nat.eqb (length (split_path document_id)) 1.

(** The identifiers the store accepts for a document of a collection: no
    "/", not "." or "..", not of the form [__.*__], at most 1500 bytes. *)
Definition valid_document_id (document_id : string) : bool :=
  direct_child document_id
  && negb (String.eqb document_id ".")
  && negb (String.eqb document_id "..")
  && negb (String.prefix "__" document_id
           && String.prefix "__" (String.rev document_id)
           && Nat.leb 4 (String.length document_id))
  && Nat.leb (String.length document_id) 1500.

(** [transaction.set] and [transaction.update] only buffer the write. *)
Definition buffer (w : write) : tx () := λ t,
  (Ok (), Txn (snapshot t) (round_trips t) (pending t ++ [w])).

(** [@firestore.transactional] when no other writer interferes: begin, run
    the body, and commit its writes; an exception raised by the body, or by
    the commit, rolls the transaction back and is raised again. *)
Definition transactional {A} (body : tx A) (s : store)
    : outcome A * store * list event :=
  match body (Txn s [BeginTransaction] []) with
  | (Ok a, t) =>
      match apply_writes s (pending t) with
      | Some s' => (Ok a, s', round_trips t ++ [CommitTransaction (pending t)])
      | None => (Raise NotFound, s,
                 round_trips t ++ [CommitRefused (pending t); RollbackTransaction])
      end
  | (Raise e, t) => (Raise e, s, round_trips t ++ [RollbackTransaction])
  end.

(** ** Request and response models *)

Record CustomerBase := {
  base_name : string;
  base_customer_id : option string
}.

Record Customer := {
  name : string;
  customer_id : string;
  total_top_up : float;
  total_spent : float;
  balance : float
}.

Record TransactionAmount := { amount : float }.

(** [Field(..., gt=0)]: the body of a top-up or spend request is accepted
    only when its amount is greater than zero. *)
Definition validate_amount (x : float) : option TransactionAmount :=
  if (0 <? x)%float then Some {| amount := x |} else None.

(** The dictionary written for a customer. *)
Definition to_dict (c : Customer) : gmap string value :=
  {[ "name" := VStr (name c);
     "customer_id" := VStr (customer_id c);
     "total_top_up" := VNum (total_top_up c);
     "total_spent" := VNum (total_spent c);
     "balance" := VNum (balance c) ]}.

Definition str_field (d : gmap string value) (k : string) : option string :=
  match d !! k with
  | Some (VStr s) => Some s
  | _ => None
  end.

(** An amount of a record: a missing field takes the default [0.0].  A
    string is not taken for an amount: how the validation of the record
    reads a string as a number is outside this model. *)
Definition float_field (d : gmap string value) (k : string) : option float :=
  match d !! k with
  | Some (VNum x) => Some x
  | Some (VStr _) => None
  | None => Some 0%float
  end.

(** [Customer(id=..., **d)]: a key ["id"] of [d] collides with the keyword
    [id] and the call fails; [name] and [customer_id] are required strings,
    the three amounts default to [0.0], other keys are ignored. *)
Definition parse_customer (d : gmap string value) : option Customer :=
  match d !! "id" with
  | Some _ => None
  | None =>
      n ← str_field d "name";
      i ← str_field d "customer_id";
      tu ← float_field d "total_top_up";
      ts ← float_field d "total_spent";
      b ← float_field d "balance";
      Some {| name := n; customer_id := i; total_top_up := tu;
              total_spent := ts; balance := b |}
  end.

Definition make_customer (d : gmap string value) : tx Customer :=
  match parse_customer d with
  | Some c => mret c
  | None => raise ValidationError
  end.

(** [d.get(k, 0.0)] *)
Definition dict_get (d : gmap string value) (k : string) : value :=
  default (VNum 0%float) (d !! k).

(** Arithmetic and comparison of a stored value with a float; a string
    operand is a [TypeError]. *)
Definition num_add (v : value) (a : float) : tx float :=
  match v with
  | VNum x => mret (x + a)%float
  | VStr _ => raise TypeError
  end.

Definition num_sub (v : value) (a : float) : tx float :=
  match v with
  | VNum x => mret (x - a)%float
  | VStr _ => raise TypeError
  end.

Definition num_lt (v : value) (a : float) : tx bool :=
  match v with
  | VNum x => mret (x <? a)%float
  | VStr _ => raise TypeError
  end.

(** ** The identifier allocator *)

Fixpoint zeros (n : nat) : string :=
  match n with
  | O => ""
  | S n' => String (Ascii.ascii_of_nat 48) (zeros n')
  end.

Definition zero_fill (width : nat) (digits : string) : string :=
  zeros (width - String.length digits) +:+ digits.

(** The format specification [04d]: decimal digits, padded with zeros after
    the sign up to a total width of four. *)
Definition format_04d (n : Z) : string :=
  match n with
  | Zneg p => "-" +:+ zero_fill 3 (pretty (Npos p))
  | _ => zero_fill 4 (pretty n)
  end.

(** [x or 0] on integers. *)
Definition or_zero (x : Z) : Z := if x =? 0 then 0 else x.

Definition counter_ref : string := "customer_id_counter".

Definition _generate_sequential_customer_id : tx string :=
  counter_doc ← get_counter counter_ref;
  current_counter_value ←
    match counter_doc with
    | None =>
        buffer (SetCounter counter_ref {[ "current_value" := 0 ]});;
        mret 0
    | Some fields =>
        match fields !! "current_value" with
        | Some v => mret (or_zero v)
        | None => raise (KeyError "current_value")
        end
    end;
  let new_counter_value := current_counter_value + 1 in
  buffer (UpdateCounter counter_ref {[ "current_value" := new_counter_value ]});;
  mret ("GOD-" +:+ format_04d new_counter_value).

(** ** Endpoints *)

Definition str_exn (e : exn) : string :=
  match e with
  | HTTPException _ detail => detail
  | KeyError key => "'" +:+ key +:+ "'"
  | TypeError => "unsupported operand type(s)"
  | ValidationError => "validation error for Customer"
  | ReadAfterWriteError => "Attempted read after write in a transaction."
  | NotFound => "404 No document to update"
  | ValueError => "A document must have an even number of path elements"
  end.

(** [except HTTPException as e: raise e] followed by
    [except Exception as e: raise HTTPException(status_code=500, ...)]. *)
Definition http_errors {A} (prefix : string) (r : outcome A) : outcome A :=
  match r with
  | Ok a => Ok a
  | Raise (HTTPException code detail) => Raise (HTTPException code detail)
  | Raise e => Raise (HTTPException 500 (prefix +:+ str_exn e))
  end.

Definition guarded {A} (prefix : string) (r : outcome A * store * list event)
    : outcome A * store * list event :=
  let '(result, s, evs) := r in (http_errors prefix result, s, evs).

(** Python truthiness of an optional string: [None] and [""] are false. *)
Definition truthy (x : option string) : option string :=
  match x with
  | Some "" => None
  | Some s => Some s
  | None => None
  end.

Definition create_customer_transaction (customer_data : CustomerBase) : tx Customer :=
  final_assigned_id ←
    match truthy (base_customer_id customer_data) with
    | Some doc_id_to_use =>
        doc_ref ← document doc_id_to_use;
        doc ← get_customer doc_ref;
        match doc with
        | Some _ =>
            raise (HTTPException 409
              ("Document with ID '" +:+ doc_id_to_use +:+
               "' already exists. Please choose another ID."))
        | None => mret doc_id_to_use
        end
    | None =>
        final_assigned_id ← _generate_sequential_customer_id;
        document final_assigned_id
    end;
  let new_customer_data_dict : gmap string value :=
    {[ "name" := VStr (base_name customer_data);
       "customer_id" := VStr final_assigned_id;
       "total_top_up" := VNum 0;
       "total_spent" := VNum 0;
       "balance" := VNum 0 ]} in
  buffer (SetCustomer final_assigned_id new_customer_data_dict);;
  make_customer new_customer_data_dict.

Definition create_customer (customer_data : CustomerBase) (s : store)
    : outcome Customer * store * list event :=
  guarded "Error creating customer: "
    (transactional (create_customer_transaction customer_data) s).

Module top_up.
Definition update_in_transaction (customer_ref : string) (amount : float)
    : tx Customer :=
  snapshot ← get_customer customer_ref;
  match snapshot with
  | None => raise (HTTPException 404 "Customer not found")
  | Some customer_data =>
      let current_total_top_up := dict_get customer_data "total_top_up" in
      let current_balance := dict_get customer_data "balance" in
      new_total_top_up ← num_add current_total_top_up amount;
      new_balance ← num_add current_balance amount;
      buffer (UpdateCustomer customer_ref
                {[ "total_top_up" := VNum new_total_top_up;
                   "balance" := VNum new_balance ]});;
      let customer_data := <["total_top_up" := VNum new_total_top_up]> customer_data in
      let customer_data := <["balance" := VNum new_balance]> customer_data in
      make_customer customer_data
  end.
End top_up.

Definition top_up_customer_balance (customer_id : string)
    (transaction_data : TransactionAmount) (s : store)
    : outcome Customer * store * list event :=
  let amount_to_add := amount transaction_data in
  guarded "Error topping up balance: "
    (transactional (top_up.update_in_transaction customer_id amount_to_add) s).

Module spend.
Definition update_in_transaction (customer_ref : string) (amount : float)
    : tx Customer :=
  snapshot ← get_customer customer_ref;
  match snapshot with
  | None => raise (HTTPException 404 "Customer not found")
  | Some customer_data =>
      let current_total_spent := dict_get customer_data "total_spent" in
      let current_balance := dict_get customer_data "balance" in
      insufficient ← num_lt current_balance amount;
      if (insufficient : bool) then
        raise (HTTPException 400 "Insufficient balance")
      else
        new_total_spent ← num_add current_total_spent amount;
        new_balance ← num_sub current_balance amount;
        buffer (UpdateCustomer customer_ref
                  {[ "total_spent" := VNum new_total_spent;
                     "balance" := VNum new_balance ]});;
        let customer_data := <["total_spent" := VNum new_total_spent]> customer_data in
        let customer_data := <["balance" := VNum new_balance]> customer_data in
        make_customer customer_data
  end.
End spend.

Definition spend_customer_balance (customer_id : string)
    (transaction_data : TransactionAmount) (s : store)
    : outcome Customer * store * list event :=
  let amount_to_spend := amount transaction_data in
  guarded "Error spending balance: "
    (transactional (spend.update_in_transaction customer_id amount_to_spend) s).

(** The delete endpoint reads and deletes outside any transaction. *)
Definition delete_customer (customer_id : string) (s : store)
    : outcome () * store * list event :=
  match customers s !! customer_id with
  | None => (Raise (HTTPException 404 "Customer not found"), s,
             [ReadCustomer customer_id])
  | Some _ => (Ok (), Store (delete customer_id (customers s)) (counters s),
               [ReadCustomer customer_id; DeleteCustomer customer_id])
  end.

(** ** Requests

    A request carries the decoded body; the body of a top-up or spend request
    is validated against [TransactionAmount] before the endpoint runs, and a
    rejected body is answered with status 422.  The identifier of a top-up,
    spend or delete request is a segment of the URL path and holds no "/";
    the identifier a create asks for comes in the body and may be any
    string. *)
Inductive request :=
  | PostCustomers (body : CustomerBase)
  | PutTopUp (customer_id : string) (amount : float)
  | PutSpend (customer_id : string) (amount : float)
  | DeleteCustomers (customer_id : string).

Definition unprocessable {A} : outcome A :=
  Raise (HTTPException 422 "Input should be greater than 0").

Definition with_record {A} (r : outcome A * store * list event)
    (f : A → option Customer) : outcome (option Customer) * store * list event :=
  let '(result, s, evs) := r in
  (match result with Ok a => Ok (f a) | Raise e => Raise e end, s, evs).

Definition handle (r : request) (s : store)
    : outcome (option Customer) * store * list event :=
  match r with
  | PostCustomers body => with_record (create_customer body s) Some
  | PutTopUp id x =>
      match validate_amount x with
      | Some transaction_data =>
          with_record (top_up_customer_balance id transaction_data s) Some
      | None => (unprocessable, s, [])
      end
  | PutSpend id x =>
      match validate_amount x with
      | Some transaction_data =>
          with_record (spend_customer_balance id transaction_data s) Some
      | None => (unprocessable, s, [])
      end
  | DeleteCustomers id => with_record (delete_customer id s) (λ _, None)
  end.

(** Requests served one after the other. *)
Fixpoint serve (rs : list request) (s : store) : store :=
  match rs with
  | [] => s
  | r :: rs' => serve rs' (handle r s).1.2
  end.

(** ** Records derived from a snapshot *)

(** The snapshot record with [total_top_up] and [balance] replaced. *)
Definition with_top_up (c : Customer) (new_total_top_up new_balance : float) : Customer :=
  {| name := name c; customer_id := customer_id c;
     total_top_up := new_total_top_up;
     total_spent := total_spent c;
     balance := new_balance |}.

(** The snapshot record with [total_spent] and [balance] replaced. *)
Definition with_spent (c : Customer) (new_total_spent new_balance : float) : Customer :=
  {| name := name c; customer_id := customer_id c;
     total_top_up := total_top_up c;
     total_spent := new_total_spent;
     balance := new_balance |}.

(** The fields a top-up, respectively a spend, passes to [transaction.update]. *)
Definition top_up_fields (new_total_top_up new_balance : float) : gmap string value :=
  {[ "total_top_up" := VNum new_total_top_up; "balance" := VNum new_balance ]}.

Definition spend_fields (new_total_spent new_balance : float) : gmap string value :=
  {[ "total_spent" := VNum new_total_spent; "balance" := VNum new_balance ]}.

(** The value of the shared counter, an absent counter counting as zero. *)
Definition counter_value (s : store) : Z :=
  match counters s !! counter_ref with
  | Some fields => default 0 (fields !! "current_value")
  | None => 0
  end.

(** The record of a customer that has just been created. *)
Definition new_record (customer_name final_id : string) : Customer :=
  {| name := customer_name; customer_id := final_id;
     total_top_up := 0; total_spent := 0; balance := 0 |}.

(** ** The ledger invariant *)

(** [balance == total_top_up - total_spent] and [balance >= 0], as Python
    evaluates them on doubles. *)
Definition ledger_equation (c : Customer) : bool :=
  (balance c =? total_top_up c - total_spent c)%float.

Definition balance_nonneg (c : Customer) : bool :=
  (0 <=? balance c)%float.

Definition ledger_invariant (c : Customer) : Prop :=
  ledger_equation c = true ∧ balance_nonneg c = true.

Definition store_invariant (s : store) : Prop :=
  ∀ id d, customers s !! id = Some d →
    ∃ c, parse_customer d = Some c ∧ ledger_invariant c.

(** The exact value of a finite double, counted in units of [2^-1074], the
    smallest positive double; infinities and NaN have none. *)
Definition exact_value (f : spec_float) : option Z :=
  match f with
  | S754_zero _ => Some 0
  | S754_finite sign m e => Some (cond_Zopp sign (Z.shiftl (Z.pos m) (e + 1074)))
  | _ => None
  end.

Definition units (x : float) : option Z := exact_value (Prim2SF x).

(** [r] is the sum, respectively the difference, of [x] and [y] without any
    rounding. *)
Definition exact_sum (x y r : float) : Prop :=
  ∃ ux uy, units x = Some ux ∧ units y = Some uy ∧ units r = Some (ux + uy).

Definition exact_difference (x y r : float) : Prop :=
  ∃ ux uy, units x = Some ux ∧ units y = Some uy ∧ units r = Some (ux - uy).

(** The ledger equation between the exact values of the three amounts. *)
Definition ledger_exact (c : Customer) : Prop :=
  ∃ b tu ts, units (balance c) = Some b ∧ units (total_top_up c) = Some tu ∧
    units (total_spent c) = Some ts ∧ b = tu - ts.

(** The shapes of a double that is [>= 0], and of one that is [> 0]. *)
Inductive nonneg_shape : spec_float → Prop :=
  | nonneg_zero s : nonneg_shape (S754_zero s)
  | nonneg_infinity : nonneg_shape (S754_infinity false)
  | nonneg_finite m e : nonneg_shape (S754_finite false m e).

Inductive pos_shape : spec_float → Prop :=
  | pos_infinity : pos_shape (S754_infinity false)
  | pos_finite m e : pos_shape (S754_finite false m e).

(** ** Identifiers as the specification words them *)

Definition digit (n : Z) : Ascii.ascii :=
  Ascii.ascii_of_nat (48 + Z.to_nat (n `mod` 10)).

Definition four_digits (n : Z) : string :=
  String (digit (n `div` 1000)) (String (digit (n `div` 100))
    (String (digit (n `div` 10)) (String (digit n) ""))).

(** The prefix followed by the number, zero-padded to four digits; a number
    beyond 9999 is written as it is. *)
Definition spec_identifier (next : Z) : string :=
  "GOD-" +:+ (if next <=? 9999 then four_digits next else pretty next).

(** ** Traces *)

(** The events of a sequence of requests served one after the other. *)
Fixpoint trace (rs : list request) (s : store) : list event :=
  match rs with
  | [] => []
  | r :: rs' => (handle r s).2 ++ trace rs' (handle r s).1.2
  end.

(** The writes that reached the store. *)
Definition committed (e : event) : list write :=
  match e with
  | CommitTransaction ws => ws
  | _ => []
  end.

(** The number a committed write gives to the shared counter by [update]:
    the number the allocator produced. *)
Definition allocated (w : write) : option Z :=
  match w with
  | UpdateCounter id data =>
      if decide (id = counter_ref) then data !! "current_value" else None
  | _ => None
  end.

Definition allocations (evs : list event) : list Z :=
  omap allocated (evs ≫= committed).

(** A create that leaves the choice of the identifier to the allocator. *)
Definition asks_allocator (r : request) : bool :=
  match r with
  | PostCustomers body =>
      match truthy (base_customer_id body) with
      | None => true
      | Some _ => false
      end
  | _ => false
  end.

(** The identifier the allocator gave to a request: the one a successful
    create without a requested identifier answers. *)
Definition allocated_identifier (r : request) (s : store) : option string :=
  match (handle r s).1.1 with
  | Ok (Some c) => if asks_allocator r then Some (customer_id c) else None
  | _ => None
  end.

(** The identifiers the allocator gave out while the requests were served,
    in the order of the requests. *)
Fixpoint allocated_identifiers (rs : list request) (s : store) : list string :=
  match rs with
  | [] => []
  | r :: rs' =>
      option_list (allocated_identifier r s)
        ++ allocated_identifiers rs' (handle r s).1.2
  end.

(** The counter document, when there is one, holds a current value. *)
Definition counter_kept (s : store) : Prop :=
  ∀ fields, counters s !! counter_ref = Some fields →
    is_Some (fields !! "current_value").

(** ** Scenarios *)

Definition alice : CustomerBase := {| base_name := "Alice"; base_customer_id := None |}.
Definition bob : CustomerBase := {| base_name := "Bob"; base_customer_id := None |}.

(** The store after Alice has been created, and after she has topped up 100
    and spent 40. *)
Definition store_alice : store := serve [PostCustomers alice] empty_store.

Definition store_alice_60 : store :=
  serve [PostCustomers alice; PutTopUp "GOD-0001" 100; PutSpend "GOD-0001" 40] empty_store.

(** Alice after a top-up of [1e16] and a spend of [1e16]: her totals are
    [1e16] and her balance is zero. *)
Definition store_large_totals : store :=
  serve [PostCustomers alice; PutTopUp "GOD-0001" 1e16; PutSpend "GOD-0001" 1e16]
    empty_store.

(** Alice after a top-up of [1e16 + 2] and a spend of [1]: her balance,
    [1e16 + 1], is rounded to [1e16]. *)
Definition store_rounded_balance : store :=
  serve [PostCustomers alice; PutTopUp "GOD-0001" 10000000000000002;
         PutSpend "GOD-0001" 1]
    empty_store.

(** Requests that ask for the identifier ["VIP-1"], and for the empty one. *)
Definition vip (customer_name : string) : CustomerBase :=
  {| base_name := customer_name; base_customer_id := Some "VIP-1" |}.

Definition unnamed_id (customer_name : string) : CustomerBase :=
  {| base_name := customer_name; base_customer_id := Some "" |}.

(** A request that asks for an identifier with a "/" in it. *)
Definition slashed (customer_name : string) : CustomerBase :=
  {| base_name := customer_name; base_customer_id := Some "a/b" |}.

(** The answer to a create whose identifier is taken. *)
Definition already_exists {A} (id : string) : outcome A :=
  Raise (HTTPException 409
    ("Document with ID '" +:+ id +:+ "' already exists. Please choose another ID.")).

(** ** Concurrent callers *)

(** Modelled from the spec: the transaction protocol of the store and the
    retry loop of its transaction runner, which belong to the store's client
    library and not to [main.py].  The spec has a transaction read its
    documents at a snapshot, has the commit fail with a conflict when the
    documents read have been written since, and has the runner repeat the
    whole body after a conflict, while an error raised by the body is
    surfaced at once.  The store stamps every document with the number of the
    commit that last wrote it. *)
Record versioned := Versioned {
  contents : store;
  commits : nat;
  stamps : gmap string nat
}.

Definition unversioned (s : store) : versioned := Versioned s 0 ∅.

Definition read_path (e : event) : list string :=
  match e with
  | ReadCustomer id => ["customers/" +:+ id]
  | ReadCounter id => ["counters/" +:+ id]
  | _ => []
  end.

Definition write_path (w : write) : string :=
  match w with
  | SetCustomer id _ | UpdateCustomer id _ => "customers/" +:+ id
  | SetCounter id _ | UpdateCounter id _ => "counters/" +:+ id
  end.

(** The read set of a transaction begun after commit [began] is fresh when
    none of its documents has been written by a later commit. *)
Definition fresh (v : versioned) (began : nat) (t : txn) : bool :=
  forallb (λ path, Nat.leb (default 0%nat (stamps v !! path)) began)
    (round_trips t ≫= read_path).

Definition stamp_writes (n : nat) (ws : list write) (m : gmap string nat)
    : gmap string nat :=
  foldr (λ w m', <[write_path w := n]> m') m ws.

(** A call of a transactional function: waiting to begin (again), running
    with its body's answer and buffered writes, or returned.  [retries]
    counts the conflicts the call has met. *)
Inductive call (A : Type) :=
  | Waiting (retries : nat)
  | Running (retries : nat) (began : nat) (t : txn) (a : A)
  | Returned (retries : nat) (r : outcome A).
Arguments Waiting {A} retries.
Arguments Running {A} retries began t a.
Arguments Returned {A} retries r.

(** One step of a call: begin and run the body on the current contents, or
    try to commit. *)
Definition attempt {A} (body : tx A) (v : versioned) (c : call A)
    : versioned * call A :=
  match c with
  | Waiting n =>
      match body (Txn (contents v) [BeginTransaction] []) with
      | (Ok a, t) => (v, Running n (commits v) t a)
      | (Raise e, _) => (v, Returned n (Raise e))
      end
  | Running n began t a =>
      if fresh v began t then
        match apply_writes (contents v) (pending t) with
        | Some s' =>
            (Versioned s' (S (commits v))
               (stamp_writes (S (commits v)) (pending t) (stamps v)),
             Returned n (Ok a))
        | None => (v, Returned n (Raise NotFound))
        end
      else (v, Waiting (S n))
  | Returned n r => (v, Returned n r)
  end.

(** Two concurrent calls of the same transactional function, interleaved by
    a schedule that says whose step comes next. *)
Inductive caller := First | Second.

Record system (A : Type) := System {
  db : versioned;
  first : call A;
  second : call A
}.
Arguments System {A} db first second.
Arguments db {A} _.
Arguments first {A} _.
Arguments second {A} _.

Definition step {A} (body : tx A) (sys : system A) (who : caller) : system A :=
  match who with
  | First =>
      let '(v, c) := attempt body (db sys) (first sys) in System v c (second sys)
  | Second =>
      let '(v, c) := attempt body (db sys) (second sys) in System v (first sys) c
  end.

Definition run {A} (body : tx A) (schedule : list caller) (sys : system A)
    : system A :=
  foldl (step body) sys schedule.

Definition start {A} (s : store) : system A :=
  System (unversioned s) (Waiting 0) (Waiting 0).

Definition returned {A} (c : call A) : bool :=
  match c with
  | Returned _ _ => true
  | _ => false
  end.

Definition retries_of {A} (c : call A) : nat :=
  match c with
  | Waiting n | Running n _ _ _ | Returned n _ => n
  end.

Global Instance caller_eq_dec : EqDecision caller.
Proof. solve_decision. Defined.

(** How often a caller is scheduled. *)
Definition turns (who : caller) (schedule : list caller) : nat :=
  length (filter (λ w, w = who) schedule).

(** *** Two top-ups of one customer, abstractly

    The states two concurrent top-ups of the same customer can reach are
    described by the number of commits so far and, for each call, its phase:
    which commit it began after, or which commit was its own. *)
Inductive phase :=
  | PWaiting (retries : nat)
  | PRunning (retries : nat) (began : nat)
  | PReturned (retries : nat) (index : nat).

Record abstract := Abstract {
  finished : nat;
  phase_first : phase;
  phase_second : phase
}.

Global Instance phase_eq_dec : EqDecision phase.
Proof. solve_decision. Defined.

Global Instance abstract_eq_dec : EqDecision abstract.
Proof. solve_decision. Defined.

Definition phase_step (k : nat) (p : phase) : nat * phase :=
  match p with
  | PWaiting n => (k, PRunning n k)
  | PRunning n j => if Nat.leb k j then (S k, PReturned n (S j)) else (k, PWaiting (S n))
  | PReturned n i => (k, PReturned n i)
  end.

Definition abstract_step (a : abstract) (who : caller) : abstract :=
  match who with
  | First =>
      let '(k, p) := phase_step (finished a) (phase_first a) in
      Abstract k p (phase_second a)
  | Second =>
      let '(k, p) := phase_step (finished a) (phase_second a) in
      Abstract k (phase_first a) p
  end.

Definition abstract_run (schedule : list caller) (a : abstract) : abstract :=
  foldl abstract_step a schedule.

Definition abstract_start : abstract := Abstract 0 (PWaiting 0) (PWaiting 0).

(** The states reachable from [a] in at most [n] steps. *)
Fixpoint reach (n : nat) (a : abstract) : list abstract :=
  match n with
  | O => [a]
  | S n' =>
      remove_dups (a :: reach n' (abstract_step a First)
                     ++ reach n' (abstract_step a Second))
  end.

Definition closed (l : list abstract) : bool :=
  forallb (λ a, bool_decide (abstract_step a First ∈ l)
                && bool_decide (abstract_step a Second ∈ l)) l.

Definition phase_of (a : abstract) (who : caller) : phase :=
  match who with
  | First => phase_first a
  | Second => phase_second a
  end.

Definition other (who : caller) : caller :=
  match who with
  | First => Second
  | Second => First
  end.

Definition phase_returned (p : phase) : bool :=
  match p with
  | PReturned _ _ => true
  | _ => false
  end.

Definition phase_retries (p : phase) : nat :=
  match p with
  | PWaiting n | PRunning n _ | PReturned n _ => n
  end.

Definition phase_began_ok (k : nat) (p : phase) : bool :=
  match p with
  | PWaiting _ => true
  | PRunning _ j => Nat.leb j k
  | PReturned _ i => Nat.leb i k
  end.

(** An upper bound on the steps a caller still needs before it returns. *)
Definition potential (a : abstract) (who : caller) : nat :=
  match phase_of a who with
  | PReturned _ _ => 0
  | PRunning _ j =>
      if Nat.leb (finished a) j && phase_returned (phase_of a (other who)) then 1 else 3
  | PWaiting _ => if phase_returned (phase_of a (other who)) then 2 else 4
  end%nat.

(** The record, the document and the store after [k] top-ups of [a]. *)
Fixpoint topped_up (c : Customer) (a : float) (k : nat) : Customer :=
  match k with
  | O => c
  | S k' =>
      let c' := topped_up c a k' in
      with_top_up c' (total_top_up c' + a) (balance c' + a)
  end.

Definition next_fields (c : Customer) (a : float) (k : nat) : gmap string value :=
  top_up_fields (total_top_up (topped_up c a k) + a) (balance (topped_up c a k) + a).

Fixpoint topped_up_doc (d : gmap string value) (c : Customer) (a : float) (k : nat)
    : gmap string value :=
  match k with
  | O => d
  | S k' => next_fields c a k' ∪ topped_up_doc d c a k'
  end.

Definition topped_up_store (s : store) (id : string) (d : gmap string value)
    (c : Customer) (a : float) (k : nat) : store :=
  Store (<[id := topped_up_doc d c a k]> (customers s)) (counters s).

Fixpoint stamps_after (path : string) (k : nat) : gmap string nat :=
  match k with
  | O => ∅
  | S k' => <[path := S k']> (stamps_after path k')
  end.

(** The state of the calls and of the store an abstract state stands for. *)
Definition concrete_call (s : store) (id : string) (d : gmap string value)
    (c : Customer) (a : float) (p : phase) : call Customer :=
  match p with
  | PWaiting n => Waiting n
  | PRunning n j =>
      Running n j
        (Txn (topped_up_store s id d c a j)
             [BeginTransaction; ReadCustomer id]
             [UpdateCustomer id (next_fields c a j)])
        (topped_up c a (S j))
  | PReturned n i => Returned n (Ok (topped_up c a i))
  end.

Definition concrete (s : store) (id : string) (d : gmap string value)
    (c : Customer) (a : float) (x : abstract) : system Customer :=
  System
    (Versioned (topped_up_store s id d c a (finished x)) (finished x)
       (stamps_after ("customers/" +:+ id) (finished x)))
    (concrete_call s id d c a (phase_first x))
    (concrete_call s id d c a (phase_second x)).

(** The states two top-ups reach from the start, after both have begun on
    the same snapshot, and after the first call has returned alone. *)
Definition reachable_states : list abstract :=
  Eval vm_compute in reach 6 abstract_start.

Definition overlapping : abstract := Abstract 0 (PRunning 0 0) (PRunning 0 0).

Definition after_overlap : list abstract :=
  Eval vm_compute in reach 4 overlapping.

Definition first_alone : abstract := Abstract 1 (PReturned 0 1) (PWaiting 0).
Definition second_alone : abstract := Abstract 1 (PWaiting 0) (PReturned 0 1).

Definition after_first_alone : list abstract :=
  Eval vm_compute in reach 2 first_alone.

Definition after_second_alone : list abstract :=
  Eval vm_compute in reach 2 second_alone.

(** What holds of every reachable abstract state: each returned call made
    one commit; when both have returned, their commits are the first and the
    second, and at most one of them was retried. *)
Definition settled (x : abstract) : bool :=
  Nat.eqb (finished x)
    (Nat.b2n (phase_returned (phase_first x)) + Nat.b2n (phase_returned (phase_second x)))
  && implb (phase_returned (phase_first x) && phase_returned (phase_second x))
       (match phase_first x, phase_second x with
        | PReturned n1 i1, PReturned n2 i2 =>
            Nat.leb (n1 + n2) 1
            && (Nat.eqb i1 1 && Nat.eqb i2 2 || Nat.eqb i1 2 && Nat.eqb i2 1)
        | _, _ => false
        end).

(** ** The read endpoints *)

Module api.

(** [GET /customers/{customer_id}]: a read outside any transaction. *)
Definition get_customer (customer_id : string) (s : store) : outcome Customer :=
  http_errors "Error retrieving customer: "
    match customers s !! customer_id with
    | None => Raise (HTTPException 404 "Customer not found")
    | Some doc =>
        match parse_customer doc with
        | Some c => Ok c
        | None => Raise ValidationError
        end
    end.

(** The loop of [get_all_customers] over the streamed documents: each one is
    turned into a [Customer] and appended; the first that cannot be raises. *)
Fixpoint collect (docs : list (string * gmap string value))
    (customer_list : list Customer) : outcome (list Customer) :=
  match docs with
  | [] => Ok customer_list
  | doc :: docs' =>
      match parse_customer doc.2 with
      | Some c => collect docs' (customer_list ++ [c])
      | None => Raise ValidationError
      end
  end.

(** [customers_ref.stream()]: the documents that lie directly in the
    collection, in the order the store streams them, here the order of
    [map_to_list]. *)
Definition stream (s : store) : list (string * gmap string value) :=
  filter (λ doc, direct_child doc.1) (map_to_list (customers s)).

(** [GET /customers/] *)
Definition get_all_customers (s : store) : outcome (list Customer) :=
  http_errors "Error retrieving all customers: " (collect (stream s) []).

End api.

(** The status code of an answer that reports an error. *)
Definition error_status {A} (r : outcome A) : option Z :=
  match r with
  | Ok _ => None
  | Raise (HTTPException code _) => Some code
  | Raise _ => Some 500
  end.

(** The document a request is about, given the record it answered. *)
Definition target (r : request) (c : Customer) : string :=
  match r with
  | PostCustomers _ => customer_id c
  | PutTopUp id _ | PutSpend id _ | DeleteCustomers id => id
  end.

(** Every document is a customer record filed under its own identifier. *)
Definition well_formed (s : store) : Prop :=
  ∀ id d, customers s !! id = Some d →
    ∃ c, parse_customer d = Some c ∧ customer_id c = id.

(** The three amounts of a record are [>= 0]; in particular none is NaN. *)
Definition amounts_nonneg (c : Customer) : Prop :=
  (0 <=? total_top_up c)%float = true ∧
  (0 <=? total_spent c)%float = true ∧
  (0 <=? balance c)%float = true.

Definition store_nonneg (s : store) : Prop :=
  ∀ id d, customers s !! id = Some d →
    ∃ c, parse_customer d = Some c ∧ amounts_nonneg c.

(** A double that is neither an infinity nor NaN, and a record whose three
    amounts are such. *)
Definition finite (x : float) : bool :=
  (neg_infinity <? x)%float && (x <? infinity)%float.

Definition finite_amounts (c : Customer) : bool :=
  finite (total_top_up c) && finite (total_spent c) && finite (balance c).

(** A request that does not spend an infinite amount. *)
Definition finite_spend (r : request) : Prop :=
  match r with
  | PutSpend _ x => (x <? infinity)%float = true
  | _ => True
  end.

(** Carol asks for the identifier the allocator will produce first, and
    tops up 100. *)
Definition carol : CustomerBase :=
  {| base_name := "Carol"; base_customer_id := Some "GOD-0001" |}.

Definition store_carol : store :=
  serve [PostCustomers carol; PutTopUp "GOD-0001" 100] empty_store.

(** * Properties *)

(** ** Documents and records *)

Lemma or_zero_id (x : Z) : or_zero x = x.
Proof. unfold or_zero. destruct (Z.eqb_spec x 0); congruence. Qed.

Lemma parse_customer_to_dict (c : Customer) : parse_customer (to_dict c) = Some c.
Proof. destruct c; reflexivity. Qed.

Lemma parse_customer_fields (d : gmap string value) (c : Customer) :
  parse_customer d = Some c →
  d !! "name" = Some (VStr (name c)) ∧
  d !! "customer_id" = Some (VStr (customer_id c)) ∧
  dict_get d "total_top_up" = VNum (total_top_up c) ∧
  dict_get d "total_spent" = VNum (total_spent c) ∧
  dict_get d "balance" = VNum (balance c).
Proof.
  unfold parse_customer, str_field, float_field, dict_get.
  destruct (d !! "id"); [discriminate|].
  destruct (d !! "name") as [[]|]; simpl; try discriminate.
  destruct (d !! "customer_id") as [[]|]; simpl; try discriminate.
  destruct (d !! "total_top_up") as [[]|]; simpl; try discriminate;
  destruct (d !! "total_spent") as [[]|]; simpl; try discriminate;
  destruct (d !! "balance") as [[]|]; simpl; try discriminate;
  intros [= <-]; simpl; auto.
Qed.

Lemma parse_customer_insert_top_up (d : gmap string value) (c : Customer) (tu b : float) :
  parse_customer d = Some c →
  parse_customer (<["balance" := VNum b]> (<["total_top_up" := VNum tu]> d))
    = Some (with_top_up c tu b).
Proof.
  unfold parse_customer, str_field, float_field.
  rewrite !lookup_insert_eq.
  rewrite !(lookup_insert_ne _ "balance") by done.
  rewrite !lookup_insert_eq.
  rewrite !(lookup_insert_ne _ "total_top_up") by done.
  destruct (d !! "id"); [discriminate|].
  destruct (d !! "name") as [[]|]; simpl; try discriminate.
  destruct (d !! "customer_id") as [[]|]; simpl; try discriminate.
  destruct (d !! "total_top_up") as [[]|]; simpl; try discriminate;
  destruct (d !! "total_spent") as [[]|]; simpl; try discriminate;
  destruct (d !! "balance") as [[]|]; simpl; try discriminate;
  intros [= <-]; reflexivity.
Qed.

Lemma parse_customer_insert_spent (d : gmap string value) (c : Customer) (ts b : float) :
  parse_customer d = Some c →
  parse_customer (<["balance" := VNum b]> (<["total_spent" := VNum ts]> d))
    = Some (with_spent c ts b).
Proof.
  unfold parse_customer, str_field, float_field.
  rewrite !lookup_insert_eq.
  rewrite !(lookup_insert_ne _ "balance") by done.
  rewrite !lookup_insert_eq.
  rewrite !(lookup_insert_ne _ "total_spent") by done.
  destruct (d !! "id"); [discriminate|].
  destruct (d !! "name") as [[]|]; simpl; try discriminate.
  destruct (d !! "customer_id") as [[]|]; simpl; try discriminate.
  destruct (d !! "total_top_up") as [[]|]; simpl; try discriminate;
  destruct (d !! "total_spent") as [[]|]; simpl; try discriminate;
  destruct (d !! "balance") as [[]|]; simpl; try discriminate;
  intros [= <-]; reflexivity.
Qed.

(** What [update] leaves in the store is the dictionary the endpoints build
    for their answer. *)
Lemma top_up_fields_union (d : gmap string value) (tu b : float) :
  top_up_fields tu b ∪ d = <["balance" := VNum b]> (<["total_top_up" := VNum tu]> d).
Proof.
  unfold top_up_fields.
  rewrite <- insert_union_l, <- insert_union_singleton_l.
  by apply insert_insert_ne.
Qed.

Lemma spend_fields_union (d : gmap string value) (ts b : float) :
  spend_fields ts b ∪ d = <["balance" := VNum b]> (<["total_spent" := VNum ts]> d).
Proof.
  unfold spend_fields.
  rewrite <- insert_union_l, <- insert_union_singleton_l.
  by apply insert_insert_ne.
Qed.

(** ** The top-up and spend endpoints on a customer document *)

Ltac run_body :=
  repeat (simpl;
    unfold mbind, tx_bind, mret, tx_ret, raise, buffer, get_customer, get_counter,
      num_add, num_sub, num_lt, make_customer; simpl).

Lemma top_up_run (s : store) (id : string) (d : gmap string value) (c : Customer)
    (ta : TransactionAmount) :
  customers s !! id = Some d →
  parse_customer d = Some c →
  let tu := (total_top_up c + amount ta)%float in
  let b := (balance c + amount ta)%float in
  top_up_customer_balance id ta s =
    (Ok (with_top_up c tu b),
     Store (<[id := top_up_fields tu b ∪ d]> (customers s)) (counters s),
     [BeginTransaction; ReadCustomer id;
      CommitTransaction [UpdateCustomer id (top_up_fields tu b)]]).
Proof.
  intros Hd Hc tu b.
  destruct (parse_customer_fields d c Hc) as (_ & _ & Htu & _ & Hb).
  unfold top_up_customer_balance, guarded, transactional, top_up.update_in_transaction.
  run_body. rewrite Hd. run_body. rewrite Htu, Hb. run_body.
  rewrite (parse_customer_insert_top_up d c _ _ Hc). run_body.
  rewrite Hd. reflexivity.
Qed.

Lemma top_up_absent (s : store) (id : string) (ta : TransactionAmount) :
  customers s !! id = None →
  top_up_customer_balance id ta s =
    (Raise (HTTPException 404 "Customer not found"), s,
     [BeginTransaction; ReadCustomer id; RollbackTransaction]).
Proof.
  intros Hd.
  unfold top_up_customer_balance, guarded, transactional, top_up.update_in_transaction.
  run_body. rewrite Hd. reflexivity.
Qed.

Lemma spend_insufficient (s : store) (id : string) (d : gmap string value) (c : Customer)
    (ta : TransactionAmount) :
  customers s !! id = Some d →
  parse_customer d = Some c →
  (balance c <? amount ta)%float = true →
  spend_customer_balance id ta s =
    (Raise (HTTPException 400 "Insufficient balance"), s,
     [BeginTransaction; ReadCustomer id; RollbackTransaction]).
Proof.
  intros Hd Hc Hlt.
  destruct (parse_customer_fields d c Hc) as (_ & _ & _ & _ & Hb).
  unfold spend_customer_balance, guarded, transactional, spend.update_in_transaction.
  run_body. rewrite Hd. run_body. rewrite Hb. run_body. rewrite Hlt. reflexivity.
Qed.

Lemma spend_run (s : store) (id : string) (d : gmap string value) (c : Customer)
    (ta : TransactionAmount) :
  customers s !! id = Some d →
  parse_customer d = Some c →
  (balance c <? amount ta)%float = false →
  let ts := (total_spent c + amount ta)%float in
  let b := (balance c - amount ta)%float in
  spend_customer_balance id ta s =
    (Ok (with_spent c ts b),
     Store (<[id := spend_fields ts b ∪ d]> (customers s)) (counters s),
     [BeginTransaction; ReadCustomer id;
      CommitTransaction [UpdateCustomer id (spend_fields ts b)]]).
Proof.
  intros Hd Hc Hlt ts b.
  destruct (parse_customer_fields d c Hc) as (_ & _ & _ & Hts & Hb).
  unfold spend_customer_balance, guarded, transactional, spend.update_in_transaction.
  run_body. rewrite Hd. run_body. rewrite Hb. run_body. rewrite Hlt. run_body.
  rewrite Hts. run_body.
  rewrite (parse_customer_insert_spent d c _ _ Hc). run_body.
  rewrite Hd. reflexivity.
Qed.

Lemma spend_absent (s : store) (id : string) (ta : TransactionAmount) :
  customers s !! id = None →
  spend_customer_balance id ta s =
    (Raise (HTTPException 404 "Customer not found"), s,
     [BeginTransaction; ReadCustomer id; RollbackTransaction]).
Proof.
  intros Hd.
  unfold spend_customer_balance, guarded, transactional, spend.update_in_transaction.
  run_body. rewrite Hd. reflexivity.
Qed.

(** ** Signs of double-precision sums and differences *)

Lemma Prim2SF_zero : Prim2SF 0%float = S754_zero false.
Proof. reflexivity. Qed.

Lemma Prim2SF_infinity : Prim2SF infinity = S754_infinity false.
Proof. reflexivity. Qed.

Lemma leb_zero_shape (x : float) : (0 <=? x)%float = true ↔ nonneg_shape (Prim2SF x).
Proof.
  rewrite leb_spec, Prim2SF_zero. unfold SFleb, SFcompare.
  split.
  - destruct (Prim2SF x) as [s|[]| |[] m e]; try discriminate; constructor.
  - destruct 1; reflexivity.
Qed.

Lemma ltb_zero_shape (x : float) : (0 <? x)%float = true ↔ pos_shape (Prim2SF x).
Proof.
  rewrite ltb_spec, Prim2SF_zero. unfold SFltb, SFcompare.
  split.
  - destruct (Prim2SF x) as [s|[]| |[] m e]; try discriminate; constructor.
  - destruct 1; reflexivity.
Qed.

Lemma leb_zero_not_pos (x : float) : (x <=? 0)%float = true → (0 <? x)%float = false.
Proof.
  rewrite leb_spec, ltb_spec, Prim2SF_zero. unfold SFleb, SFltb, SFcompare.
  destruct (Prim2SF x) as [s|[]| |[] m e]; try discriminate; reflexivity.
Qed.

(** Rounding a non-negative mantissa never produces a negative number. *)
Lemma iter_pos_invariant {A} (P : A → Prop) (f : A → A) :
  (∀ x, P x → P (f x)) → ∀ p x, P x → P (SpecFloat.iter_pos f p x).
Proof.
  intros Hf. induction p as [p IH|p IH|]; simpl; intros x Hx; auto.
Qed.

Lemma shr_1_nonneg (mrs : shr_record) : 0 <= shr_m mrs → 0 <= shr_m (shr_1 mrs).
Proof.
  destruct mrs as [m r s]; simpl.
  destruct m as [|[p|p|]|[p|p|]]; simpl; lia.
Qed.

Lemma shr_nonneg (mrs : shr_record) (e n : Z) :
  0 <= shr_m mrs → 0 <= shr_m (shr mrs e n).1.
Proof.
  intros H. destruct n as [|p|p]; simpl; auto.
  apply (iter_pos_invariant (λ r, 0 <= shr_m r)); auto using shr_1_nonneg.
Qed.

Lemma shr_fexp_nonneg (m e : Z) (l : location) :
  0 <= m → 0 <= shr_m (shr_fexp prec emax m e l).1.
Proof.
  intros H. unfold shr_fexp. apply shr_nonneg.
  destruct l as [|[]]; simpl; exact H.
Qed.

Lemma round_nearest_even_nonneg (m : Z) (l : location) :
  0 <= m → 0 <= round_nearest_even m l.
Proof.
  intros H. destruct l as [|[]]; simpl; try lia.
  destruct (Z.even m); lia.
Qed.

Lemma binary_round_aux_nonneg (m e : Z) (l : location) :
  0 <= m → nonneg_shape (binary_round_aux prec emax false m e l).
Proof.
  intros H. unfold binary_round_aux.
  pose proof (shr_fexp_nonneg m e l H) as H1.
  destruct (shr_fexp prec emax m e l) as [mrs' e']. simpl in H1.
  pose proof (shr_fexp_nonneg _ e' loc_Exact
    (round_nearest_even_nonneg _ (loc_of_shr_record mrs') H1)) as H2.
  destruct (shr_fexp prec emax (round_nearest_even _ _) e' loc_Exact) as [mrs'' e''].
  simpl in H2.
  destruct (shr_m mrs'') as [|p|p]; [constructor| |lia].
  destruct (e'' <=? emax - prec); constructor.
Qed.

Lemma binary_round_nonneg (m : positive) (e : Z) :
  nonneg_shape (binary_round prec emax false m e).
Proof.
  unfold binary_round.
  destruct (shl_align m e _) as [mz ez].
  apply binary_round_aux_nonneg. lia.
Qed.

Lemma binary_normalize_nonneg (m e : Z) :
  0 <= m → nonneg_shape (binary_normalize prec emax m e false).
Proof.
  intros H. destruct m as [|p|p]; simpl; [constructor|apply binary_round_nonneg|lia].
Qed.

(** Adding a positive double to a non-negative one. *)
Lemma add_nonneg (x y : float) :
  (0 <=? x)%float = true → (0 <? y)%float = true → (0 <=? x + y)%float = true.
Proof.
  rewrite !leb_zero_shape, ltb_zero_shape, add_spec.
  unfold SF64add.
  intros Hx Hy. destruct Hx as [[]| |mx ex]; destruct Hy as [|my ey]; simpl;
    try constructor.
  apply binary_round_nonneg.
Qed.

(** Subtracting from a double one that is not greater. *)
Lemma digits2_pos_bounds (m : positive) :
  2 ^ (Z.pos (digits2_pos m) - 1) <= Z.pos m < 2 ^ Z.pos (digits2_pos m).
Proof.
  induction m as [m IH|m IH|]; simpl digits2_pos.
  - rewrite Pos2Z.inj_succ, Z.pow_succ_r by lia.
    replace (Z.succ (Z.pos (digits2_pos m)) - 1) with (Z.succ (Z.pos (digits2_pos m) - 1)) by lia.
    rewrite Z.pow_succ_r by lia. lia.
  - rewrite Pos2Z.inj_succ, Z.pow_succ_r by lia.
    replace (Z.succ (Z.pos (digits2_pos m)) - 1) with (Z.succ (Z.pos (digits2_pos m) - 1)) by lia.
    rewrite Z.pow_succ_r by lia. lia.
  - simpl. lia.
Qed.

Lemma iter_xO_value (m d : positive) : Z.pos (Pos.iter xO m d) = Z.pos m * 2 ^ Z.pos d.
Proof.
  change (Pos.iter xO m d) with (shift_pos d m).
  rewrite shift_pos_correct. change (Z.pow_pos 2 d) with (2 ^ Z.pos d). lia.
Qed.

Lemma canonical_digits (m : positive) (e : Z) :
  bounded prec emax m e = true →
  Z.pos (digits2_pos m) <= prec ∧ (emin < e → Z.pos (digits2_pos m) = prec).
Proof.
  unfold bounded, canonical_mantissa, fexp.
  intros [H _]%andb_true_iff. apply Z.eqb_eq in H. lia.
Qed.

Lemma aligned_ge (mx my : positive) (ex ey : Z) :
  bounded prec emax mx ex = true →
  bounded prec emax my ey = true →
  SFcompare (S754_finite false mx ex) (S754_finite false my ey) ≠ Some Lt →
  Z.pos (shl_align my ey (Z.min ex ey)).1 <= Z.pos (shl_align mx ex (Z.min ex ey)).1.
Proof.
  intros Hx Hy Hcmp. simpl in Hcmp.
  destruct (canonical_digits _ _ Hx) as [_ Hdx].
  destruct (canonical_digits _ _ Hy) as [Hdy _].
  assert (emin <= ey) as Hey.
  { revert Hy. unfold bounded, canonical_mantissa, fexp.
    intros [H _]%andb_true_iff. apply Z.eqb_eq in H. lia. }
  destruct (Z.compare_spec ex ey) as [->|Hlt|Hgt]; [|congruence|].
  - rewrite Z.min_id. unfold shl_align. rewrite Z.sub_diag. simpl.
    rewrite Pos.compare_cont_spec in Hcmp. simpl in Hcmp.
    revert Hcmp. destruct (Pos.compare_spec mx my); simpl; try congruence; lia.
  - rewrite Z.min_r by lia. unfold shl_align. rewrite Z.sub_diag.
    destruct (ey - ex) as [|d|d] eqn:Hd; try lia. simpl.
    rewrite iter_xO_value.
    pose proof (digits2_pos_bounds mx) as Bx.
    pose proof (digits2_pos_bounds my) as By.
    rewrite Hdx in Bx by lia.
    assert (2 ^ Z.pos (digits2_pos my) <= 2 ^ prec) by (apply Z.pow_le_mono_r; lia).
    assert (2 ^ 1 <= 2 ^ Z.pos d) by (apply Z.pow_le_mono_r; lia).
    change (2 ^ 1) with 2 in *. change (2 ^ (prec - 1)) with 4503599627370496 in Bx.
    change (2 ^ prec) with 9007199254740992 in *.
    nia.
Qed.

Lemma sub_nonneg (x y : float) :
  (0 <=? x)%float = true → (0 <? y)%float = true →
  (x <? y)%float = false → (y <? infinity)%float = true →
  (0 <=? x - y)%float = true.
Proof.
  rewrite !leb_zero_shape, ltb_zero_shape, !ltb_spec, sub_spec, Prim2SF_infinity.
  pose proof (Prim2SF_valid x) as Vx. pose proof (Prim2SF_valid y) as Vy.
  unfold SF64sub, SFltb.
  intros Hx Hy Hlt Hfin.
  destruct Hx as [[]| |mx ex]; destruct Hy as [|my ey]; simpl in *;
    try discriminate; try constructor.
  assert (Z.pos (shl_align my ey (Z.min ex ey)).1 <= Z.pos (shl_align mx ex (Z.min ex ey)).1) as Hge.
  { apply aligned_ge; auto. simpl. intros [= E]. rewrite E in Hlt. discriminate. }
  apply binary_normalize_nonneg. lia.
Qed.

(** ** Exact results are not rounded *)

Lemma digits2_pos_unique (m : positive) (d : Z) :
  2 ^ (d - 1) <= Z.pos m < 2 ^ d → Z.pos (digits2_pos m) = d.
Proof.
  intros [Hlo Hhi]. pose proof (digits2_pos_bounds m) as [Blo Bhi].
  destruct (Z.lt_trichotomy (Z.pos (digits2_pos m)) d) as [Hlt|[Heq|Hgt]]; [|done|].
  - assert (2 ^ Z.pos (digits2_pos m) <= 2 ^ (d - 1)) by (apply Z.pow_le_mono_r; lia).
    lia.
  - assert (0 <= d ∨ d < 0) as [Hd|Hd] by lia.
    + assert (2 ^ d <= 2 ^ (Z.pos (digits2_pos m) - 1)) by (apply Z.pow_le_mono_r; lia).
      lia.
    + rewrite (Z.pow_neg_r 2 d) in Hhi by lia. lia.
Qed.

Lemma digits2_pos_shift (m q : positive) (n : Z) :
  0 <= n → Z.pos m = Z.pos q * 2 ^ n →
  Z.pos (digits2_pos m) = Z.pos (digits2_pos q) + n.
Proof.
  intros Hn Hm. apply digits2_pos_unique.
  pose proof (digits2_pos_bounds q) as [Blo Bhi].
  rewrite Hm.
  replace (Z.pos (digits2_pos q) + n - 1) with (Z.pos (digits2_pos q) - 1 + n) by lia.
  rewrite !Z.pow_add_r by lia.
  assert (0 < 2 ^ n) by (apply Z.pow_pos_nonneg; lia).
  nia.
Qed.

Lemma iter_pos_count {A} (Q : Z → A → Prop) (f : A → A) (N : Z) :
  (∀ j x, 0 <= j < N → Q j x → Q (j + 1) (f x)) →
  ∀ p j x, 0 <= j → j + Z.pos p <= N → Q j x →
    Q (j + Z.pos p) (SpecFloat.iter_pos f p x).
Proof.
  intros Hf. induction p as [p IH|p IH|]; intros j x Hj HN Hx; simpl.
  - replace (j + Z.pos p~1) with (j + 1 + Z.pos p + Z.pos p) by lia.
    apply IH; [lia..|]. apply IH; [lia..|]. apply Hf; [lia|done].
  - replace (j + Z.pos p~0) with (j + Z.pos p + Z.pos p) by lia.
    apply IH; [lia..|]. apply IH; [lia..|]. done.
  - apply Hf; [lia|done].
Qed.

(** Shifting out zero bits is exact. *)
Lemma shr_exact (q m p : positive) :
  Z.pos m = Z.pos q * 2 ^ Z.pos p →
  SpecFloat.iter_pos shr_1 p (Build_shr_record (Z.pos m) false false)
    = Build_shr_record (Z.pos q) false false.
Proof.
  intros Hm.
  pose (Q := λ (j : Z) (r : shr_record),
    ∃ k, r = Build_shr_record (Z.pos k) false false ∧
         Z.pos k = Z.pos q * 2 ^ (Z.pos p - j)).
  assert (Q (0 + Z.pos p)
            (SpecFloat.iter_pos shr_1 p (Build_shr_record (Z.pos m) false false)))
    as (k & -> & Hk).
  { apply (iter_pos_count Q shr_1 (Z.pos p)); [|lia|lia|].
    - intros j x Hj (k & -> & Hk).
      replace (Z.pos p - j) with (Z.succ (Z.pos p - (j + 1))) in Hk by lia.
      rewrite Z.pow_succ_r in Hk by lia.
      destruct k as [k|k|]; [lia| |lia].
      exists k. split; [reflexivity|lia].
    - exists m. split; [reflexivity|]. by rewrite Z.sub_0_r. }
  replace (Z.pos p - (0 + Z.pos p)) with 0 in Hk by lia.
  f_equal. lia.
Qed.

Lemma bounded_canonical (m : positive) (e : Z) :
  bounded prec emax m e = true →
  fexp prec emax (Z.pos (digits2_pos m) + e) = e ∧ e <= emax - prec ∧ -1074 <= e.
Proof.
  unfold bounded, canonical_mantissa.
  intros [H1 H2]%andb_true_iff. apply Z.eqb_eq in H1. apply Z.leb_le in H2.
  split; [done|]. split; [done|].
  revert H1. unfold fexp, emin. change (3 - emax - prec) with (-1074). lia.
Qed.

(** A canonical mantissa and exponent are left as they are. *)
Lemma binary_round_aux_canonical (s : bool) (m : positive) (e : Z) :
  bounded prec emax m e = true →
  binary_round_aux prec emax s (Z.pos m) e loc_Exact = S754_finite s m e.
Proof.
  intros Hb. destruct (bounded_canonical m e Hb) as (Hc & He & _).
  unfold binary_round_aux, shr_fexp. simpl Zdigits2. rewrite Hc, Z.sub_diag.
  simpl. rewrite Hc, Z.sub_diag. simpl.
  apply Z.leb_le in He. by rewrite He.
Qed.

(** Rounding a number that a double represents gives that double. *)
Lemma binary_round_exact (s : bool) (m : positive) (e : Z) (mz : positive) (ez : Z) :
  bounded prec emax mz ez = true →
  -1074 <= e →
  Z.pos m * 2 ^ (e + 1074) = Z.pos mz * 2 ^ (ez + 1074) →
  binary_round prec emax s m e = S754_finite s mz ez.
Proof.
  intros Hb He Hv. destruct (bounded_canonical mz ez Hb) as (Hc & Hmax & Hmin).
  assert (0 < 2 ^ (e + 1074)) by (apply Z.pow_pos_nonneg; lia).
  assert (0 < 2 ^ (ez + 1074)) by (apply Z.pow_pos_nonneg; lia).
  unfold binary_round.
  destruct (Z.le_gt_cases ez e) as [Hle|Hgt].
  - (* the mantissa is shifted left onto the double's *)
    assert (Z.pos mz = Z.pos m * 2 ^ (e - ez)) as Hmz.
    { replace (e + 1074) with (e - ez + (ez + 1074)) in Hv by lia.
      rewrite (Z.pow_add_r 2 (e - ez)) in Hv by lia.
      apply (Z.mul_reg_r _ _ (2 ^ (ez + 1074))); [lia|]. rewrite <- Hv. ring. }
    pose proof (digits2_pos_shift mz m (e - ez) ltac:(lia) Hmz) as Hdig.
    replace (Z.pos (digits2_pos m) + e) with (Z.pos (digits2_pos mz) + ez) by lia.
    rewrite Hc. unfold shl_align.
    destruct (ez - e) as [|d|d] eqn:Hd; try lia.
    + assert (e = ez) as -> by lia. rewrite Z.sub_diag, Z.mul_1_r in Hmz.
      injection Hmz as ->. by apply binary_round_aux_canonical.
    + assert (Pos.iter xO m d = mz) as ->.
      { apply Pos2Z.inj. rewrite iter_xO_value, Hmz. f_equal. f_equal. lia. }
      by apply binary_round_aux_canonical.
  - (* the zero bits below the double's exponent are shifted out *)
    assert (Z.pos m = Z.pos mz * 2 ^ (ez - e)) as Hm.
    { replace (ez + 1074) with (ez - e + (e + 1074)) in Hv by lia.
      rewrite (Z.pow_add_r 2 (ez - e)) in Hv by lia.
      apply (Z.mul_reg_r _ _ (2 ^ (e + 1074))); [lia|]. rewrite Hv. ring. }
    pose proof (digits2_pos_shift m mz (ez - e) ltac:(lia) Hm) as Hd.
    replace (Z.pos (digits2_pos m) + e) with (Z.pos (digits2_pos mz) + ez) by lia.
    rewrite Hc. unfold shl_align.
    destruct (ez - e) as [|p|p] eqn:Hp; try lia.
    unfold binary_round_aux, shr_fexp. simpl Zdigits2.
    replace (Z.pos (digits2_pos m) + e) with (Z.pos (digits2_pos mz) + ez) by lia.
    rewrite Hc, Hp. simpl shr_record_of_loc. unfold shr at 1.
    rewrite (shr_exact mz m p Hm). cbn [shr_m loc_of_shr_record round_nearest_even].
    replace (e + Z.pos p) with ez by lia.
    simpl Zdigits2. rewrite Hc, Z.sub_diag. simpl.
    apply Z.leb_le in Hmax. by rewrite Hmax.
Qed.

Lemma finite_value (s : bool) (m : positive) (e : Z) :
  bounded prec emax m e = true →
  exact_value (S754_finite s m e) = Some (cond_Zopp s (Z.pos m * 2 ^ (e + 1074))) ∧
  0 < Z.pos m * 2 ^ (e + 1074).
Proof.
  intros Hb. destruct (bounded_canonical m e Hb) as (_ & _ & He).
  simpl. rewrite Z.shiftl_mul_pow2 by lia. split; [done|].
  assert (0 < 2 ^ (e + 1074)) by (apply Z.pow_pos_nonneg; lia). lia.
Qed.

Lemma SFeqb_finite_refl (s : bool) (m : positive) (e : Z) :
  SFeqb (S754_finite s m e) (S754_finite s m e) = true.
Proof.
  unfold SFeqb, SFcompare. rewrite Z.compare_refl, Pos.compare_cont_refl.
  by destruct s.
Qed.

(** Two doubles with the same exact value compare equal. *)
Lemma exact_value_eq (z r : spec_float) (u : Z) :
  valid_binary z = true → valid_binary r = true →
  exact_value z = Some u → exact_value r = Some u →
  SFeqb z r = true.
Proof.
  intros Vz Vr Hz Hr.
  destruct z as [sz| | |sz mz ez]; try discriminate;
    destruct r as [sr| | |sr mr er]; try discriminate; [done|..].
  - destruct (finite_value sr mr er Vr) as [E ?]. rewrite E in Hr.
    simpl in Hz. destruct sr; simpl in Hr; simplify_eq; lia.
  - destruct (finite_value sz mz ez Vz) as [E ?]. rewrite E in Hz.
    simpl in Hr. destruct sz; simpl in Hz; simplify_eq; lia.
  - destruct (finite_value sz mz ez Vz) as [Ez ?]. rewrite Ez in Hz.
    destruct (finite_value sr mr er Vr) as [Er ?]. rewrite Er in Hr.
    destruct (bounded_canonical mr er Vr) as (_ & _ & ?).
    assert (sz = sr) as ->
      by (destruct sz, sr; simpl in *; simplify_eq; try done; lia).
    assert (Z.pos mr * 2 ^ (er + 1074) = Z.pos mz * 2 ^ (ez + 1074)) as Hv
      by (destruct sr; simpl in *; simplify_eq; lia).
    pose proof (binary_round_exact sr mr er mz ez Vz ltac:(lia) Hv) as R1.
    pose proof (binary_round_exact sr mr er mr er Vr ltac:(lia) eq_refl) as R2.
    rewrite R1 in R2. injection R2 as -> ->. apply SFeqb_finite_refl.
Qed.

Lemma shl_align_value (m : positive) (e e' : Z) :
  e' <= e →
  (shl_align m e e').2 = e' ∧
  Z.pos (shl_align m e e').1 = Z.pos m * 2 ^ (e - e').
Proof.
  intros He. unfold shl_align.
  destruct (e' - e) as [|d|d] eqn:Hd; try lia; simpl.
  - assert (e = e') as -> by lia. rewrite Z.sub_diag. lia.
  - split; [done|]. rewrite iter_xO_value. f_equal. f_equal. lia.
Qed.

(** A difference that a double represents is computed without rounding. *)
Lemma SFsub_exact (x y z : spec_float) (ux uy : Z) :
  valid_binary x = true → valid_binary y = true →
  valid_binary z = true →
  exact_value x = Some ux → exact_value y = Some uy →
  exact_value z = Some (ux - uy) →
  SFeqb z (SFsub prec emax x y) = true.
Proof.
  intros Vx Vy Vz Hx Hy Hz.
  destruct x as [sx| | |sx mx ex]; try discriminate;
    destruct y as [sy| | |sy my ey]; try discriminate.
  - apply (exact_value_eq _ _ (ux - uy)); [done| |done|].
    + by destruct sx, sy.
    + simpl in Hx, Hy. simplify_eq. by destruct sx, sy.
  - apply (exact_value_eq _ _ (ux - uy)); [done|done|done|].
    simpl in Hx. injection Hx as <-.
    destruct (finite_value sy my ey Vy) as [E _]. rewrite E in Hy.
    injection Hy as <-.
    destruct (finite_value (negb sy) my ey Vy) as [E' _].
    simpl SFsub. rewrite E'. f_equal. destruct sy; simpl; lia.
  - apply (exact_value_eq _ _ (ux - uy)); [done|done|done|].
    simpl in Hy. injection Hy as <-. simpl SFsub. rewrite Hx. f_equal. lia.
  - destruct (finite_value sx mx ex Vx) as [Ex _]. rewrite Ex in Hx.
    destruct (finite_value sy my ey Vy) as [Ey _]. rewrite Ey in Hy.
    injection Hx as <-. injection Hy as <-.
    destruct (bounded_canonical mx ex Vx) as (_ & _ & ?).
    destruct (bounded_canonical my ey Vy) as (_ & _ & ?).
    simpl SFsub.
    destruct (shl_align_value mx ex (Z.min ex ey) ltac:(lia)) as [_ Ax].
    destruct (shl_align_value my ey (Z.min ex ey) ltac:(lia)) as [_ Ay].
    set (ez := Z.min ex ey) in *.
    set (ax := (shl_align mx ex ez).1) in *. set (ay := (shl_align my ey ez).1) in *.
    assert (0 < 2 ^ (ez + 1074)) as Hpow by (apply Z.pow_pos_nonneg; lia).
    assert (ux_eq : cond_Zopp sx (Z.pos mx * 2 ^ (ex + 1074))
              = cond_Zopp sx (Z.pos ax) * 2 ^ (ez + 1074)).
    { replace (ex + 1074) with (ex - ez + (ez + 1074)) by lia.
      rewrite (Z.pow_add_r 2 (ex - ez)) by lia. rewrite Ax.
      destruct sx; simpl; ring. }
    assert (uy_eq : cond_Zopp sy (Z.pos my * 2 ^ (ey + 1074))
              = cond_Zopp sy (Z.pos ay) * 2 ^ (ez + 1074)).
    { replace (ey + 1074) with (ey - ez + (ez + 1074)) by lia.
      rewrite (Z.pow_add_r 2 (ey - ez)) by lia. rewrite Ay.
      destruct sy; simpl; ring. }
    rewrite ux_eq, uy_eq, <- Z.mul_sub_distr_r in Hz.
    destruct (cond_Zopp sx (Z.pos ax) - cond_Zopp sy (Z.pos ay)) as [|m|m] eqn:HM;
      simpl binary_normalize.
    + apply (exact_value_eq _ _ 0); done.
    + destruct z as [sz| | |sz mz ezz]; try discriminate.
      { simpl in Hz. injection Hz. lia. }
      destruct (finite_value sz mz ezz Vz) as [Ez ?]. rewrite Ez in Hz.
      injection Hz as Hz.
      assert (sz = false) as -> by (destruct sz; [simpl in Hz; lia|done]).
      simpl in Hz.
      rewrite (binary_round_exact false m ez mz ezz Vz) by lia.
      apply SFeqb_finite_refl.
    + destruct z as [sz| | |sz mz ezz]; try discriminate.
      { simpl in Hz. injection Hz. lia. }
      destruct (finite_value sz mz ezz Vz) as [Ez ?]. rewrite Ez in Hz.
      injection Hz as Hz.
      assert (sz = true) as -> by (destruct sz; [done|simpl in Hz; lia]).
      simpl in Hz.
      rewrite (binary_round_exact true m ez mz ezz Vz) by lia.
      apply SFeqb_finite_refl.
Qed.

Lemma sub_exact (x y z : float) (ux uy : Z) :
  units x = Some ux → units y = Some uy → units z = Some (ux - uy) →
  (z =? x - y)%float = true.
Proof.
  intros Hx Hy Hz. rewrite FloatAxioms.eqb_spec, sub_spec.
  apply (SFsub_exact _ _ _ ux uy); auto using Prim2SF_valid.
Qed.

(** The equation between the exact values implies the equation as Python
    evaluates it: the difference of the totals is then computed exactly. *)
Lemma ledger_exact_equation (c : Customer) : ledger_exact c → ledger_equation c = true.
Proof.
  intros (b & tu & ts & Hb & Htu & Hts & ->).
  by apply (sub_exact _ _ _ tu ts).
Qed.

(** ** The allocator and the create endpoint *)

Lemma allocator_run (s : store) (evs : list event) :
  _generate_sequential_customer_id (Txn s evs []) =
    match counters s !! counter_ref with
    | None =>
        (Ok ("GOD-" +:+ format_04d 1),
         Txn s (evs ++ [ReadCounter counter_ref])
           [SetCounter counter_ref {[ "current_value" := 0 ]};
            UpdateCounter counter_ref {[ "current_value" := 1 ]}])
    | Some fields =>
        match fields !! "current_value" with
        | Some current =>
            (Ok ("GOD-" +:+ format_04d (current + 1)),
             Txn s (evs ++ [ReadCounter counter_ref])
               [UpdateCounter counter_ref {[ "current_value" := current + 1 ]}])
        | None =>
            (Raise (KeyError "current_value"),
             Txn s (evs ++ [ReadCounter counter_ref]) [])
        end
    end.
Proof.
  unfold _generate_sequential_customer_id. run_body.
  destruct (counters s !! counter_ref) as [fields|]; run_body; [|reflexivity].
  destruct (fields !! "current_value") as [current|]; run_body; [|reflexivity].
  rewrite or_zero_id. reflexivity.
Qed.

(** *** Document paths *)

Lemma split_path_cons (c : Ascii.ascii) (s : string) :
  c ≠ slash → split_path s = [s] → split_path (String c s) = [String c s].
Proof.
  intros Hc Hs. simpl. rewrite Hs. by destruct (Ascii.eqb_spec c slash).
Qed.

Lemma split_path_zeros (n : nat) (s : string) :
  split_path s = [s] → split_path (zeros n +:+ s) = [zeros n +:+ s].
Proof.
  intros Hs. induction n as [|n IH]; [done|].
  change (zeros (S n) +:+ s) with (String (Ascii.ascii_of_nat 48) (zeros n +:+ s)).
  by apply split_path_cons.
Qed.

Lemma pretty_N_char_slash (x : N) : pretty_N_char x ≠ slash.
Proof. unfold pretty_N_char. repeat case_match; discriminate. Qed.

Lemma split_path_pretty_N_go (x : N) (s : string) :
  split_path s = [s] → split_path (pretty_N_go x s) = [pretty_N_go x s].
Proof.
  revert s. induction (N.lt_wf_0 x) as [x _ IH]; intros s Hs.
  destruct (decide (x = 0)%N) as [->|Hx]; [by rewrite pretty_N_go_0|].
  rewrite pretty_N_go_step by lia.
  apply IH; [apply N.div_lt; lia|].
  apply split_path_cons; [apply pretty_N_char_slash|done].
Qed.

Lemma split_path_pretty_N (x : N) : split_path (pretty x) = [pretty x].
Proof.
  unfold pretty, pretty_N. destruct (decide (x = 0)%N); [reflexivity|].
  by apply split_path_pretty_N_go.
Qed.

(** An identifier of the allocator has no "/": it names a document that lies
    directly in the collection. *)
Lemma split_path_allocated (n : Z) :
  split_path ("GOD-" +:+ format_04d n) = ["GOD-" +:+ format_04d n].
Proof.
  assert (split_path (format_04d n) = [format_04d n]) as Hn.
  { destruct n as [|p|p]; [reflexivity| |].
    - apply split_path_zeros, (split_path_pretty_N (N.pos p)).
    - unfold format_04d.
      change ("-" +:+ ?x) with (String (Ascii.ascii_of_nat 45) x).
      apply split_path_cons; [discriminate|].
      apply split_path_zeros, split_path_pretty_N. }
  change ("GOD-" +:+ ?x) with
    (String (Ascii.ascii_of_nat 71) (String (Ascii.ascii_of_nat 79)
       (String (Ascii.ascii_of_nat 68) (String (Ascii.ascii_of_nat 45) x)))).
  repeat (apply split_path_cons; [discriminate|]). exact Hn.
Qed.

Lemma direct_child_valid_path (id : string) : direct_child id = true → valid_path id = true.
Proof.
  unfold direct_child, valid_path. intros H%Nat.eqb_eq. simpl. by rewrite H.
Qed.

Lemma direct_child_allocated (n : Z) : direct_child ("GOD-" +:+ format_04d n) = true.
Proof. unfold direct_child. by rewrite split_path_allocated. Qed.

Lemma document_allocated (n : Z) (t : txn) :
  document ("GOD-" +:+ format_04d n) t = (Ok ("GOD-" +:+ format_04d n), t).
Proof.
  unfold document.
  by rewrite (direct_child_valid_path _ (direct_child_allocated n)).
Qed.

(** *** The two paths of a create *)

Lemma create_requested (body : CustomerBase) (id : string) (s : store) :
  truthy (base_customer_id body) = Some id →
  create_customer body s =
    if valid_path id then
      match customers s !! id with
      | Some _ =>
          (Raise (HTTPException 409
             ("Document with ID '" +:+ id +:+ "' already exists. Please choose another ID.")),
           s, [BeginTransaction; ReadCustomer id; RollbackTransaction])
      | None =>
          let c := new_record (base_name body) id in
          (Ok c, Store (<[id := to_dict c]> (customers s)) (counters s),
           [BeginTransaction; ReadCustomer id;
            CommitTransaction [SetCustomer id (to_dict c)]])
      end
    else
      (Raise (HTTPException 500
         "Error creating customer: A document must have an even number of path elements"),
       s, [BeginTransaction; RollbackTransaction]).
Proof.
  intros Hid.
  unfold create_customer, guarded, transactional, create_customer_transaction.
  rewrite Hid. unfold document.
  destruct (valid_path id); run_body; [|reflexivity].
  destruct (customers s !! id); reflexivity.
Qed.

Lemma allocate_run (s : store) (evs : list event) :
  (final_assigned_id ← _generate_sequential_customer_id; document final_assigned_id)
    (Txn s evs []) = _generate_sequential_customer_id (Txn s evs []).
Proof.
  unfold mbind at 1. unfold tx_bind at 1. rewrite allocator_run.
  destruct (counters s !! counter_ref) as [fields|];
    [destruct (fields !! "current_value")|]; try reflexivity;
    apply document_allocated.
Qed.

Lemma create_allocated (body : CustomerBase) (s : store) :
  truthy (base_customer_id body) = None →
  create_customer body s =
    match counters s !! counter_ref with
    | None =>
        let c := new_record (base_name body) ("GOD-" +:+ format_04d 1) in
        (Ok c,
         Store (<[customer_id c := to_dict c]> (customers s))
               (<[counter_ref := {[ "current_value" := 1 ]}]> (counters s)),
         [BeginTransaction; ReadCounter counter_ref;
          CommitTransaction
            [SetCounter counter_ref {[ "current_value" := 0 ]};
             UpdateCounter counter_ref {[ "current_value" := 1 ]};
             SetCustomer (customer_id c) (to_dict c)]])
    | Some fields =>
        match fields !! "current_value" with
        | Some current =>
            let c := new_record (base_name body) ("GOD-" +:+ format_04d (current + 1)) in
            (Ok c,
             Store (<[customer_id c := to_dict c]> (customers s))
                   (<[counter_ref := {[ "current_value" := current + 1 ]} ∪ fields]>
                      (counters s)),
             [BeginTransaction; ReadCounter counter_ref;
              CommitTransaction
                [UpdateCounter counter_ref {[ "current_value" := current + 1 ]};
                 SetCustomer (customer_id c) (to_dict c)]])
        | None =>
            (Raise (HTTPException 500 "Error creating customer: 'current_value'"), s,
             [BeginTransaction; ReadCounter counter_ref; RollbackTransaction])
        end
    end.
Proof.
  intros Hid.
  unfold create_customer, guarded, transactional, create_customer_transaction.
  rewrite Hid.
  unfold mbind at 1. unfold tx_bind at 1. rewrite allocate_run, allocator_run.
  destruct (counters s !! counter_ref) as [fields|] eqn:Hc.
  - destruct (fields !! "current_value") as [current|]; [|reflexivity].
    run_body.
    change (parse_customer _) with (parse_customer
      (to_dict (new_record (base_name body) ("GOD-" +:+ format_04d (current + 1))))).
    rewrite parse_customer_to_dict. simpl. rewrite Hc. reflexivity.
  - run_body.
    change (parse_customer _) with (parse_customer
      (to_dict (new_record (base_name body) ("GOD-" +:+ format_04d 1)))).
    rewrite parse_customer_to_dict. simpl. rewrite lookup_insert_eq. simpl.
    rewrite insert_insert_eq. reflexivity.
Qed.

(** ** Validation of the amount *)

(** C8: a top-up or spend request whose amount is [<= 0] is rejected by the
    validation of the request body: the answer is the validation error, the
    store is unchanged and the trace of store round trips is empty, so no
    transaction was begun and nothing was read or written. *)
Theorem nonpositive_amount_rejected (s : store) (id : string) (x : float) :
  (x <=? 0)%float = true →
  handle (PutTopUp id x) s = (unprocessable, s, []) ∧
  handle (PutSpend id x) s = (unprocessable, s, []).
Proof.
  intros Hx. apply leb_zero_not_pos in Hx.
  unfold handle, validate_amount. rewrite Hx. split; reflexivity.
Qed.

Lemma nonpositive_amount_rejected_witness :
  handle (PutTopUp "GOD-0001" (-5)) store_alice = (unprocessable, store_alice, []) ∧
  handle (PutSpend "GOD-0001" (-5)) store_alice = (unprocessable, store_alice, []).
Proof.
  apply (nonpositive_amount_rejected store_alice "GOD-0001" (-5)%float).
  reflexivity.
Defined.

(** ** Top-up *)

(** C5: for an amount [> 0], a top-up of an absent customer fails with 404
    and leaves the store alone; a top-up of an existing customer commits one
    update holding [total_top_up + amount] and [balance + amount], after a
    single read, and answers the snapshot record with those two fields
    replaced, which is also the record the stored document now holds. *)
Theorem top_up_adds_amount (s : store) (id : string) (x : float) :
  (0 <? x)%float = true →
  (customers s !! id = None →
     handle (PutTopUp id x) s =
       (Raise (HTTPException 404 "Customer not found"), s,
        [BeginTransaction; ReadCustomer id; RollbackTransaction])) ∧
  (∀ d c, customers s !! id = Some d → parse_customer d = Some c →
     let tu := (total_top_up c + x)%float in
     let b := (balance c + x)%float in
     handle (PutTopUp id x) s =
       (Ok (Some (with_top_up c tu b)),
        Store (<[id := top_up_fields tu b ∪ d]> (customers s)) (counters s),
        [BeginTransaction; ReadCustomer id;
         CommitTransaction [UpdateCustomer id (top_up_fields tu b)]]) ∧
     parse_customer (top_up_fields tu b ∪ d) = Some (with_top_up c tu b)).
Proof.
  intros Hx. unfold handle, validate_amount. rewrite Hx. split.
  - intros Hd. rewrite top_up_absent by done. reflexivity.
  - intros d c Hd Hc. cbv zeta. split.
    + rewrite (top_up_run s id d c) by done. reflexivity.
    + rewrite top_up_fields_union. by apply parse_customer_insert_top_up.
Qed.

Lemma top_up_adds_amount_witness :
  (handle (PutTopUp "GOD-0001" 100) store_alice).1.1 =
    Ok (Some {| name := "Alice"; customer_id := "GOD-0001";
                total_top_up := 100; total_spent := 0; balance := 100 |}) ∧
  (handle (PutTopUp "GOD-0002" 100) store_alice).1.1 =
    Raise (HTTPException 404 "Customer not found").
Proof.
  destruct (top_up_adds_amount store_alice "GOD-0001" 100%float eq_refl) as [_ Hsome].
  destruct (top_up_adds_amount store_alice "GOD-0002" 100%float eq_refl) as [Hnone _].
  destruct (Hsome (to_dict (new_record "Alice" "GOD-0001")) (new_record "Alice" "GOD-0001")
              eq_refl eq_refl) as [-> _].
  rewrite Hnone by reflexivity.
  split; reflexivity.
Defined.

(** ** Spend *)

(** C2: for an existing customer and an amount [> 0], a spend fails with
    "Insufficient balance" exactly when the snapshot balance is less than the
    amount, and then the transaction is rolled back after its single read and
    the store is unchanged; otherwise it commits one update holding
    [total_spent + amount] and [balance - amount] and answers the updated
    record. *)
Theorem spend_checks_balance (s : store) (id : string) (d : gmap string value)
    (c : Customer) (x : float) :
  customers s !! id = Some d →
  parse_customer d = Some c →
  (0 <? x)%float = true →
  let r := handle (PutSpend id x) s in
  let ts := (total_spent c + x)%float in
  let b := (balance c - x)%float in
  (r.1.1 = Raise (HTTPException 400 "Insufficient balance")
     ↔ (balance c <? x)%float = true) ∧
  ((balance c <? x)%float = true →
     r = (Raise (HTTPException 400 "Insufficient balance"), s,
          [BeginTransaction; ReadCustomer id; RollbackTransaction])) ∧
  ((balance c <? x)%float = false →
     r = (Ok (Some (with_spent c ts b)),
          Store (<[id := spend_fields ts b ∪ d]> (customers s)) (counters s),
          [BeginTransaction; ReadCustomer id;
           CommitTransaction [UpdateCustomer id (spend_fields ts b)]]) ∧
     parse_customer (spend_fields ts b ∪ d) = Some (with_spent c ts b)).
Proof.
  intros Hd Hc Hx r ts b. subst r.
  unfold handle, validate_amount. rewrite Hx.
  destruct (balance c <? x)%float eqn:Hlt.
  - rewrite (spend_insufficient s id d c) by done. simpl.
    split; [done|]. split; [done|]. discriminate.
  - rewrite (spend_run s id d c) by done. simpl.
    split; [split; discriminate|]. split; [discriminate|].
    intros _. split; [reflexivity|].
    rewrite spend_fields_union. by apply parse_customer_insert_spent.
Qed.

Lemma spend_checks_balance_witness :
  handle (PutSpend "GOD-0001" 1000) store_alice_60 =
    (Raise (HTTPException 400 "Insufficient balance"), store_alice_60,
     [BeginTransaction; ReadCustomer "GOD-0001"; RollbackTransaction]) ∧
  (handle (PutSpend "GOD-0001" 60) store_alice_60).1.1 =
    Ok (Some {| name := "Alice"; customer_id := "GOD-0001";
                total_top_up := 100; total_spent := 100; balance := 0 |}).
Proof.
  pose (c := {| name := "Alice"; customer_id := "GOD-0001";
                total_top_up := 100; total_spent := 40; balance := 60 |}).
  assert (customers store_alice_60 !! "GOD-0001" = Some (to_dict c)) as Hd
    by reflexivity.
  destruct (spend_checks_balance store_alice_60 "GOD-0001" (to_dict c) c 1000%float
              Hd eq_refl eq_refl) as (_ & Hfail & _).
  destruct (spend_checks_balance store_alice_60 "GOD-0001" (to_dict c) c 60%float
              Hd eq_refl eq_refl) as (_ & _ & Hok).
  split.
  - apply Hfail. reflexivity.
  - destruct (Hok eq_refl) as [-> _]. reflexivity.
Defined.

(** ** What an endpoint can do to the store *)

(** A top-up either fails, leaving the store alone and committing nothing,
    or commits a single update of the two fields. *)
Lemma top_up_cases (s : store) (id : string) (ta : TransactionAmount) :
  (∃ e evs, top_up_customer_balance id ta s = (Raise e, s, evs) ∧
            evs ≫= committed = []) ∨
  (∃ d tu b c, customers s !! id = Some d ∧
     top_up_customer_balance id ta s =
       (Ok c, Store (<[id := top_up_fields tu b ∪ d]> (customers s)) (counters s),
        [BeginTransaction; ReadCustomer id;
         CommitTransaction [UpdateCustomer id (top_up_fields tu b)]])).
Proof.
  unfold top_up_customer_balance, guarded, transactional, top_up.update_in_transaction.
  run_body.
  destruct (customers s !! id) as [d|] eqn:Hd; run_body; [|left; eauto].
  destruct (dict_get d "total_top_up") as [?|tu]; run_body; [left; eauto|].
  destruct (dict_get d "balance") as [?|b]; run_body; [left; eauto|].
  destruct (parse_customer _) as [c|]; run_body; [|left; eauto].
  rewrite Hd. right. by exists d, (tu + amount ta)%float, (b + amount ta)%float, c.
Qed.

Lemma spend_cases (s : store) (id : string) (ta : TransactionAmount) :
  (∃ e evs, spend_customer_balance id ta s = (Raise e, s, evs) ∧
            evs ≫= committed = []) ∨
  (∃ d ts b c, customers s !! id = Some d ∧
     spend_customer_balance id ta s =
       (Ok c, Store (<[id := spend_fields ts b ∪ d]> (customers s)) (counters s),
        [BeginTransaction; ReadCustomer id;
         CommitTransaction [UpdateCustomer id (spend_fields ts b)]])).
Proof.
  unfold spend_customer_balance, guarded, transactional, spend.update_in_transaction.
  run_body.
  destruct (customers s !! id) as [d|] eqn:Hd; run_body; [|left; eauto].
  destruct (dict_get d "balance") as [?|b]; run_body; [left; eauto|].
  destruct (b <? amount ta)%float; run_body; [left; eauto|].
  destruct (dict_get d "total_spent") as [?|ts]; run_body; [left; eauto|].
  destruct (parse_customer _) as [c|]; run_body; [|left; eauto].
  rewrite Hd. right. by exists d, (ts + amount ta)%float, (b - amount ta)%float, c.
Qed.

Lemma union_lookup_frame (fields d : gmap string value) (k : string) :
  k ∉ dom fields → (fields ∪ d) !! k = d !! k.
Proof. intros Hk. apply lookup_union_r. by apply not_elem_of_dom. Qed.

Lemma dom_top_up_fields (tu b : float) :
  dom (top_up_fields tu b) = ({[ "total_top_up"; "balance" ]} : gset string).
Proof. unfold top_up_fields. rewrite dom_insert_L, dom_singleton_L. done. Qed.

Lemma dom_spend_fields (ts b : float) :
  dom (spend_fields ts b) = ({[ "total_spent"; "balance" ]} : gset string).
Proof. unfold spend_fields. rewrite dom_insert_L, dom_singleton_L. done. Qed.

(** ** Frame of the updates *)

(** C10: a successful top-up commits exactly one update of the customer
    document, whose fields are [total_top_up] and [balance]; a successful
    spend commits exactly one update whose fields are [total_spent] and
    [balance].  Every other field of the document, in particular [name],
    [customer_id] and the other total, every other document and the counters
    are as before. *)
Theorem update_writes_two_fields (s : store) (id : string) (x : float)
    (c : option Customer) (s' : store) (evs : list event) :
  (handle (PutTopUp id x) s = (Ok c, s', evs) →
     ∃ d fields, customers s !! id = Some d ∧
       dom fields = ({[ "total_top_up"; "balance" ]} : gset string) ∧
       evs ≫= committed = [UpdateCustomer id fields] ∧
       s' = Store (<[id := fields ∪ d]> (customers s)) (counters s) ∧
       (fields ∪ d) !! "name" = d !! "name" ∧
       (fields ∪ d) !! "customer_id" = d !! "customer_id" ∧
       (fields ∪ d) !! "total_spent" = d !! "total_spent" ∧
       (∀ k, k ≠ "total_top_up" → k ≠ "balance" → (fields ∪ d) !! k = d !! k) ∧
       (∀ id', id' ≠ id → customers s' !! id' = customers s !! id')) ∧
  (handle (PutSpend id x) s = (Ok c, s', evs) →
     ∃ d fields, customers s !! id = Some d ∧
       dom fields = ({[ "total_spent"; "balance" ]} : gset string) ∧
       evs ≫= committed = [UpdateCustomer id fields] ∧
       s' = Store (<[id := fields ∪ d]> (customers s)) (counters s) ∧
       (fields ∪ d) !! "name" = d !! "name" ∧
       (fields ∪ d) !! "customer_id" = d !! "customer_id" ∧
       (fields ∪ d) !! "total_top_up" = d !! "total_top_up" ∧
       (∀ k, k ≠ "total_spent" → k ≠ "balance" → (fields ∪ d) !! k = d !! k) ∧
       (∀ id', id' ≠ id → customers s' !! id' = customers s !! id')).
Proof.
  split; intros H; unfold handle in H;
    destruct (validate_amount x) as [ta|]; try discriminate.
  - destruct (top_up_cases s id ta) as [(e & evs' & Heq & _)|(d & tu & b & c' & Hd & Heq)];
      rewrite Heq in H; simpl in H; [discriminate|].
    injection H as ? ? ?; subst c s' evs.
    exists d, (top_up_fields tu b).
    assert (∀ k, k ≠ "total_top_up" → k ≠ "balance" →
              (top_up_fields tu b ∪ d) !! k = d !! k) as Hframe.
    { intros k H1 H2. apply union_lookup_frame.
      rewrite dom_top_up_fields, not_elem_of_union, !not_elem_of_singleton. done. }
    repeat split; auto using dom_top_up_fields.
    intros id' Hne. simpl. by rewrite lookup_insert_ne.
  - destruct (spend_cases s id ta) as [(e & evs' & Heq & _)|(d & ts & b & c' & Hd & Heq)];
      rewrite Heq in H; simpl in H; [discriminate|].
    injection H as ? ? ?; subst c s' evs.
    exists d, (spend_fields ts b).
    assert (∀ k, k ≠ "total_spent" → k ≠ "balance" →
              (spend_fields ts b ∪ d) !! k = d !! k) as Hframe.
    { intros k H1 H2. apply union_lookup_frame.
      rewrite dom_spend_fields, not_elem_of_union, !not_elem_of_singleton. done. }
    repeat split; auto using dom_spend_fields.
    intros id' Hne. simpl. by rewrite lookup_insert_ne.
Qed.

Lemma update_writes_two_fields_witness :
  (∃ d fields, customers store_alice_60 !! "GOD-0001" = Some d ∧
     (handle (PutTopUp "GOD-0001" 5) store_alice_60).2 ≫= committed
       = [UpdateCustomer "GOD-0001" fields] ∧
     (fields ∪ d) !! "name" = d !! "name" ∧
     (fields ∪ d) !! "total_spent" = d !! "total_spent") ∧
  (∃ d fields, customers store_alice_60 !! "GOD-0001" = Some d ∧
     (handle (PutSpend "GOD-0001" 5) store_alice_60).2 ≫= committed
       = [UpdateCustomer "GOD-0001" fields] ∧
     (fields ∪ d) !! "customer_id" = d !! "customer_id" ∧
     (fields ∪ d) !! "total_top_up" = d !! "total_top_up").
Proof.
  split.
  - assert (handle (PutTopUp "GOD-0001" 5) store_alice_60 =
              (Ok (Some {| name := "Alice"; customer_id := "GOD-0001";
                           total_top_up := 105; total_spent := 40; balance := 65 |}),
               (handle (PutTopUp "GOD-0001" 5) store_alice_60).1.2,
               (handle (PutTopUp "GOD-0001" 5) store_alice_60).2)) as Hrun
      by reflexivity.
    destruct (proj1 (update_writes_two_fields store_alice_60 "GOD-0001" 5 _ _ _) Hrun)
      as (d & fields & Hd & _ & Hevs & _ & Hname & _ & Hspent & _).
    exists d, fields. auto.
  - assert (handle (PutSpend "GOD-0001" 5) store_alice_60 =
              (Ok (Some {| name := "Alice"; customer_id := "GOD-0001";
                           total_top_up := 100; total_spent := 45; balance := 55 |}),
               (handle (PutSpend "GOD-0001" 5) store_alice_60).1.2,
               (handle (PutSpend "GOD-0001" 5) store_alice_60).2)) as Hrun
      by reflexivity.
    destruct (proj2 (update_writes_two_fields store_alice_60 "GOD-0001" 5 _ _ _) Hrun)
      as (d & fields & Hd & _ & Hevs & _ & _ & Hid & Htop & _).
    exists d, fields. auto.
Defined.

(** ** What a successful create leaves behind *)

Lemma create_ok (body : CustomerBase) (s : store) (c : Customer) (s' : store)
    (evs : list event) :
  create_customer body s = (Ok c, s', evs) →
  ∃ final_id, c = new_record (base_name body) final_id ∧
    customers s' = <[final_id := to_dict c]> (customers s) ∧
    ((truthy (base_customer_id body) = Some final_id ∧
      customers s !! final_id = None ∧ counters s' = counters s ∧
      allocations evs = []) ∨
     (truthy (base_customer_id body) = None ∧
      final_id = "GOD-" +:+ format_04d (counter_value s + 1) ∧
      counter_value s' = counter_value s + 1 ∧
      allocations evs = [counter_value s + 1])).
Proof.
  intros H. destruct (truthy (base_customer_id body)) as [id|] eqn:Hid.
  - rewrite (create_requested body id s Hid) in H.
    destruct (valid_path id); [|discriminate].
    destruct (customers s !! id) eqn:Hd; [discriminate|].
    cbv zeta in H. injection H as ? ? ?; subst c s' evs.
    exists id. repeat split; auto.
  - rewrite (create_allocated body s Hid) in H. unfold counter_value.
    destruct (counters s !! counter_ref) as [fields|] eqn:Hc.
    + destruct (fields !! "current_value") as [current|] eqn:Hv; [|discriminate].
      cbv zeta in H. injection H as ? ? ?; subst c s' evs. simpl.
      eexists. split; [reflexivity|]. split; [reflexivity|].
      right. split; [done|]. split; [reflexivity|]. split.
      * rewrite lookup_insert_eq, lookup_union_l', lookup_singleton_eq; [done|].
        by rewrite lookup_singleton_eq.
      * unfold allocations. simpl. by rewrite lookup_singleton_eq.
    + cbv zeta in H. injection H as ? ? ?; subst c s' evs. simpl.
      eexists. split; [reflexivity|]. split; [reflexivity|].
      right. split; [done|]. split; [reflexivity|]. split; [|reflexivity].
      by rewrite lookup_insert_eq, lookup_singleton_eq.
Qed.

(** ** The ledger invariant *)

Lemma units_zero : units 0 = Some 0.
Proof. reflexivity. Qed.

Lemma exact_sum_keeps_ledger (c : Customer) (x : float) :
  ledger_exact c →
  exact_sum (balance c) x (balance c + x) →
  exact_sum (total_top_up c) x (total_top_up c + x) →
  ledger_exact (with_top_up c (total_top_up c + x) (balance c + x)).
Proof.
  intros (b & tu & ts & Hb & Htu & Hts & Heq) (ub & ux & Hb' & Hx & Hsum)
    (utu & ux' & Htu' & Hx' & Hsum').
  exists (ub + ux), (utu + ux'), ts. simpl.
  repeat split; auto.
  rewrite Hb in Hb'. rewrite Htu in Htu'. rewrite Hx in Hx'.
  injection Hb' as <-. injection Htu' as <-. injection Hx' as <-. lia.
Qed.

Lemma exact_difference_keeps_ledger (c : Customer) (x : float) :
  ledger_exact c →
  exact_difference (balance c) x (balance c - x) →
  exact_sum (total_spent c) x (total_spent c + x) →
  ledger_exact (with_spent c (total_spent c + x) (balance c - x)).
Proof.
  intros (b & tu & ts & Hb & Htu & Hts & Heq) (ub & ux & Hb' & Hx & Hsum)
    (uts & ux' & Hts' & Hx' & Hsum').
  exists (ub - ux), tu, (uts + ux'). simpl.
  repeat split; auto.
  rewrite Hb in Hb'. rewrite Hts in Hts'. rewrite Hx in Hx'.
  injection Hb' as <-. injection Hts' as <-. injection Hx' as <-. lia.
Qed.

(** C1, as stated, fails: Alice's record satisfies the invariant after a
    top-up and a spend of [1e16], and a further top-up of [1] leaves her with
    [balance = 1] but [total_top_up = total_spent = 1e16], because
    [1e16 + 1] rounds to [1e16].  The equation fails both as Python
    evaluates it and between the exact values. *)
Lemma ledger_equation_lost_to_rounding :
  store_invariant store_large_totals ∧
  ∃ c, handle (PutTopUp "GOD-0001" 1) store_large_totals =
         (Ok (Some c),
          Store {[ "GOD-0001" := to_dict c ]} (counters store_large_totals),
          [BeginTransaction; ReadCustomer "GOD-0001";
           CommitTransaction
             [UpdateCustomer "GOD-0001" (top_up_fields 1e16 1)]]) ∧
       c = {| name := "Alice"; customer_id := "GOD-0001";
              total_top_up := 1e16; total_spent := 1e16; balance := 1 |} ∧
       ledger_equation c = false ∧
       ¬ ledger_exact c ∧
       ¬ store_invariant (handle (PutTopUp "GOD-0001" 1) store_large_totals).1.2.
Proof.
  pose (c0 := {| name := "Alice"; customer_id := "GOD-0001";
                 total_top_up := 1e16; total_spent := 1e16; balance := 0 |}).
  pose (c1 := {| name := "Alice"; customer_id := "GOD-0001";
                 total_top_up := 1e16; total_spent := 1e16; balance := 1 |}).
  assert (customers store_large_totals = {[ "GOD-0001" := to_dict c0 ]}) as Hs
    by reflexivity.
  assert (handle (PutTopUp "GOD-0001" 1) store_large_totals =
            (Ok (Some c1),
             Store {[ "GOD-0001" := to_dict c1 ]} (counters store_large_totals),
             [BeginTransaction; ReadCustomer "GOD-0001";
              CommitTransaction
                [UpdateCustomer "GOD-0001" (top_up_fields 1e16 1)]])) as Hrun
    by reflexivity.
  split.
  - intros id d Hd. rewrite Hs in Hd.
    apply lookup_singleton_Some in Hd as [<- <-].
    exists c0. split; [apply parse_customer_to_dict|]. split; reflexivity.
  - exists c1. split; [exact Hrun|]. split; [reflexivity|]. split; [reflexivity|].
    split.
    + intros (b & tu & ts & Hb & Htu & Hts & Heq).
      vm_compute in Hb, Htu, Hts.
      injection Hb as <-. injection Htu as <-. injection Hts as <-. discriminate.
    + rewrite Hrun. cbn [fst snd customers]. intros Hinv.
      destruct (Hinv "GOD-0001" (to_dict c1)) as (c & Hc & Heq & _).
      { apply lookup_singleton_eq. }
      rewrite parse_customer_to_dict in Hc. injection Hc as <-. discriminate.
Qed.

(** The equation as Python evaluates it is weaker than the equation between
    the exact values, and is not kept on its own: after a top-up of
    [1e16 + 2] and a spend of [1], Alice's balance is [1e16] and
    [total_top_up - total_spent] rounds to [1e16], so the comparison holds;
    a top-up of [2] is then computed without rounding in both fields and
    leaves [balance = 1e16 + 2] while [total_top_up - total_spent] rounds to
    [1e16 + 4]. *)
Lemma ledger_equation_alone_not_kept :
  let c := {| name := "Alice"; customer_id := "GOD-0001";
              total_top_up := 10000000000000002; total_spent := 1;
              balance := 1e16 |} in
  let c' := with_top_up c (total_top_up c + 2) (balance c + 2) in
  customers store_rounded_balance !! "GOD-0001" = Some (to_dict c) ∧
  ledger_invariant c ∧ ¬ ledger_exact c ∧
  (handle (PutTopUp "GOD-0001" 2) store_rounded_balance).1.1 = Ok (Some c') ∧
  exact_sum (balance c) 2 (balance c') ∧
  exact_sum (total_top_up c) 2 (total_top_up c') ∧
  ledger_equation c' = false.
Proof.
  cbv zeta. split; [reflexivity|]. split; [split; reflexivity|]. split.
  { intros (b & tu & ts & Hb & Htu & Hts & Heq).
    vm_compute in Hb, Htu, Hts.
    injection Hb as <-. injection Htu as <-. injection Hts as <-. discriminate. }
  split; [reflexivity|].
  split; [|split; [|reflexivity]];
    eexists _, _; (split; [|split]); vm_compute; reflexivity.
Qed.

(** C1, amended: the record a create writes has all three amounts at zero
    and satisfies the invariant.  On a record with [balance >= 0], a top-up
    and a successful spend of a finite amount leave [balance >= 0] on the
    record they write; they store the double-precision sums
    [balance + amount] and [total_top_up + amount], respectively the
    difference [balance - amount] and the sum [total_spent + amount], and
    leave the other total alone.  When [balance = total_top_up - total_spent]
    holds between the exact values before the operation and the two results
    of the operation are exact, the equation holds between the exact values
    afterwards; and the equation between the exact values implies
    [balance == total_top_up - total_spent] as Python evaluates it, so the
    record written then satisfies the invariant. *)
Theorem ledger_invariant_up_to_rounding :
  (∀ c, ledger_exact c → ledger_equation c = true) ∧
  (∀ body s c s' evs,
     create_customer body s = (Ok c, s', evs) →
     customers s' !! customer_id c = Some (to_dict c) ∧
     total_top_up c = 0%float ∧ total_spent c = 0%float ∧ balance c = 0%float ∧
     ledger_invariant c ∧ ledger_exact c) ∧
  (∀ s id d c x,
     customers s !! id = Some d → parse_customer d = Some c →
     balance_nonneg c = true → (0 <? x)%float = true →
     ∃ c' d' s' evs,
       handle (PutTopUp id x) s = (Ok (Some c'), s', evs) ∧
       customers s' !! id = Some d' ∧ parse_customer d' = Some c' ∧
       balance_nonneg c' = true ∧
       balance c' = (balance c + x)%float ∧
       total_top_up c' = (total_top_up c + x)%float ∧
       total_spent c' = total_spent c ∧
       (ledger_exact c → exact_sum (balance c) x (balance c') →
        exact_sum (total_top_up c) x (total_top_up c') →
        ledger_exact c' ∧ ledger_invariant c')) ∧
  (∀ s id d c x,
     customers s !! id = Some d → parse_customer d = Some c →
     balance_nonneg c = true → (0 <? x)%float = true →
     (x <? infinity)%float = true → (balance c <? x)%float = false →
     ∃ c' d' s' evs,
       handle (PutSpend id x) s = (Ok (Some c'), s', evs) ∧
       customers s' !! id = Some d' ∧ parse_customer d' = Some c' ∧
       balance_nonneg c' = true ∧
       balance c' = (balance c - x)%float ∧
       total_spent c' = (total_spent c + x)%float ∧
       total_top_up c' = total_top_up c ∧
       (ledger_exact c → exact_difference (balance c) x (balance c') →
        exact_sum (total_spent c) x (total_spent c') →
        ledger_exact c' ∧ ledger_invariant c')).
Proof.
  split; [exact ledger_exact_equation|]. split; [|split].
  - intros body s c s' evs H.
    destruct (create_ok body s c s' evs H) as (final_id & -> & Hs & _).
    simpl. rewrite Hs, lookup_insert_eq.
    repeat split; try reflexivity.
    exists 0, 0, 0. repeat split; apply units_zero.
  - intros s id d c x Hd Hc Hb Hx.
    exists (with_top_up c (total_top_up c + x) (balance c + x)),
      (top_up_fields (total_top_up c + x) (balance c + x) ∪ d).
    do 2 eexists. split.
    { unfold handle, validate_amount. rewrite Hx.
      rewrite (top_up_run s id d c) by done. reflexivity. }
    simpl. rewrite lookup_insert_eq. split; [done|]. split.
    { rewrite top_up_fields_union. by apply parse_customer_insert_top_up. }
    assert (balance_nonneg (with_top_up c (total_top_up c + x) (balance c + x)) = true)
      as Hnn by (by apply add_nonneg).
    split; [exact Hnn|]. split; [reflexivity|]. split; [reflexivity|].
    split; [reflexivity|].
    intros He Hsb Hst.
    pose proof (exact_sum_keeps_ledger c x He Hsb Hst) as He'.
    split; [exact He'|]. split; [by apply ledger_exact_equation|exact Hnn].
  - intros s id d c x Hd Hc Hb Hx Hfin Hlt.
    exists (with_spent c (total_spent c + x) (balance c - x)),
      (spend_fields (total_spent c + x) (balance c - x) ∪ d).
    do 2 eexists. split.
    { unfold handle, validate_amount. rewrite Hx.
      rewrite (spend_run s id d c) by done. reflexivity. }
    simpl. rewrite lookup_insert_eq. split; [done|]. split.
    { rewrite spend_fields_union. by apply parse_customer_insert_spent. }
    assert (balance_nonneg (with_spent c (total_spent c + x) (balance c - x)) = true)
      as Hnn by (by apply sub_nonneg).
    split; [exact Hnn|]. split; [reflexivity|]. split; [reflexivity|].
    split; [reflexivity|].
    intros He Hsb Hst.
    pose proof (exact_difference_keeps_ledger c x He Hsb Hst) as He'.
    split; [exact He'|]. split; [by apply ledger_exact_equation|exact Hnn].
Qed.

Lemma ledger_invariant_up_to_rounding_witness :
  (∃ c, (create_customer alice empty_store).1.1 = Ok c ∧ ledger_invariant c) ∧
  (∃ c, (handle (PutTopUp "GOD-0001" 100) store_alice).1.1 = Ok (Some c) ∧
        ledger_exact c ∧ ledger_invariant c) ∧
  (∃ c, (handle (PutSpend "GOD-0001" 60) store_alice_60).1.1 = Ok (Some c) ∧
        ledger_exact c ∧ ledger_invariant c).
Proof.
  destruct ledger_invariant_up_to_rounding as (_ & Hcreate & Htop & Hspend).
  split; [|split].
  - eexists. split; [reflexivity|].
    eapply (Hcreate alice empty_store). reflexivity.
  - pose (c := new_record "Alice" "GOD-0001").
    destruct (Htop store_alice "GOD-0001" (to_dict c) c 100%float)
      as (c' & d' & s' & evs & Hrun & _ & _ & Hnn & Hb & Htu & _ & Hexact);
      try reflexivity.
    exists c'. rewrite Hrun. split; [reflexivity|].
    apply Hexact.
    + exists 0, 0, 0. repeat split; reflexivity.
    + rewrite Hb. eexists _, _. repeat split; vm_compute; reflexivity.
    + rewrite Htu. eexists _, _. repeat split; vm_compute; reflexivity.
  - pose (c := {| name := "Alice"; customer_id := "GOD-0001";
                  total_top_up := 100; total_spent := 40; balance := 60 |}).
    destruct (Hspend store_alice_60 "GOD-0001" (to_dict c) c 60%float)
      as (c' & d' & s' & evs & Hrun & _ & _ & Hnn & Hb & Hts & _ & Hexact);
      try reflexivity.
    exists c'. rewrite Hrun. split; [reflexivity|].
    apply Hexact.
    + eexists _, _, _. repeat split; vm_compute; reflexivity.
    + rewrite Hb. eexists _, _. repeat split; vm_compute; reflexivity.
    + rewrite Hts. eexists _, _. repeat split; vm_compute; reflexivity.
Defined.

(** ** The allocator's numbers *)

Lemma allocations_app (evs1 evs2 : list event) :
  allocations (evs1 ++ evs2) = allocations evs1 ++ allocations evs2.
Proof. unfold allocations. by rewrite bind_app, omap_app. Qed.

(** A request either allocates nothing and leaves the counter alone, or
    allocates the counter's value plus one and stores it in the counter. *)
Lemma handle_allocation (r : request) (s : store) :
  (allocations (handle r s).2 = [] ∧
   counter_value (handle r s).1.2 = counter_value s) ∨
  (allocations (handle r s).2 = [counter_value s + 1] ∧
   counter_value (handle r s).1.2 = counter_value s + 1).
Proof.
  destruct r as [body|id x|id x|id]; unfold handle.
  - destruct (create_customer body s) as [[[c|e] s'] evs] eqn:Hrun.
    + destruct (create_ok body s c s' evs Hrun)
        as (final_id & _ & _ & [(_ & _ & Hc & Ha)|(_ & _ & Hc & Ha)]); simpl.
      * left. unfold counter_value. by rewrite Hc.
      * right. done.
    + left. simpl. revert Hrun.
      destruct (truthy (base_customer_id body)) as [id|] eqn:Hid.
      * rewrite (create_requested body id s Hid).
        destruct (valid_path id); [|by intros [= _ <- <-]].
        destruct (customers s !! id); [|discriminate]. by intros [= _ <- <-].
      * rewrite (create_allocated body s Hid).
        destruct (counters s !! counter_ref) as [fields|]; [|discriminate].
        destruct (fields !! "current_value"); [discriminate|]. by intros [= _ <- <-].
  - destruct (validate_amount x) as [ta|]; [|by left].
    destruct (top_up_cases s id ta) as [(e & evs & -> & Hc)|(d & tu & b & c & _ & ->)];
      left; simpl; [|done].
    unfold allocations. by rewrite Hc.
  - destruct (validate_amount x) as [ta|]; [|by left].
    destruct (spend_cases s id ta) as [(e & evs & -> & Hc)|(d & ts & b & c & _ & ->)];
      left; simpl; [|done].
    unfold allocations. by rewrite Hc.
  - unfold delete_customer. destruct (customers s !! id); by left.
Qed.

Lemma seqZ_sorted (m n : Z) : StronglySorted Z.lt (seqZ m n).
Proof.
  destruct (Z.le_gt_cases n 0) as [?|Hn]; [rewrite seqZ_nil by done; constructor|].
  rewrite <- (Z2Nat.id n) by lia.
  generalize (Z.to_nat n) as k. clear. intros k. revert m.
  induction k as [|k IH]; intros m; [constructor|].
  rewrite seqZ_cons by lia.
  replace (Z.pred (Z.of_nat (S k))) with (Z.of_nat k) by lia.
  constructor; [apply IH|].
  apply Forall_seqZ. lia.
Qed.

(** ** The format of identifiers *)

Lemma pretty_N_go_length (x : N) (s : string) :
  (String.length s <= String.length (pretty_N_go x s))%nat.
Proof.
  revert s. induction (N.lt_wf_0 x) as [x _ IH]; intros s.
  destruct (decide (x = 0)%N) as [->|Hx]; [by rewrite pretty_N_go_0|].
  rewrite pretty_N_go_step by lia.
  etrans; [|apply IH; apply N.div_lt; lia]. simpl. lia.
Qed.

Lemma pretty_length_ge_4 (n : Z) : 1000 <= n → (4 <= String.length (pretty n))%nat.
Proof.
  intros Hn. destruct n as [|p|p]; try lia.
  unfold pretty, pretty_Z, pretty, pretty_positive, pretty, pretty_N.
  rewrite decide_False by done.
  assert (1000 <= N.pos p)%N as Hp by lia.
  generalize dependent (N.pos p). intros x Hx.
  assert (100 <= x `div` 10)%N by (apply N.div_le_lower_bound; lia).
  assert (10 <= (x `div` 10) `div` 10)%N by (apply N.div_le_lower_bound; lia).
  assert (1 <= ((x `div` 10) `div` 10) `div` 10)%N by (apply N.div_le_lower_bound; lia).
  rewrite 4!pretty_N_go_step by lia.
  etrans; [|apply pretty_N_go_length]. simpl. lia.
Qed.

Lemma digit_char (m : Z) :
  0 <= m → digit m = pretty_N_char (Z.to_N m `mod` 10)%N.
Proof.
  intros Hm. unfold digit.
  change 10%N with (Z.to_N 10). rewrite <- Z2N.inj_mod by lia.
  pose proof (Z.mod_pos_bound m 10) as Hr.
  assert (m `mod` 10 = 0 ∨ m `mod` 10 = 1 ∨ m `mod` 10 = 2 ∨ m `mod` 10 = 3 ∨
          m `mod` 10 = 4 ∨ m `mod` 10 = 5 ∨ m `mod` 10 = 6 ∨ m `mod` 10 = 7 ∨
          m `mod` 10 = 8 ∨ m `mod` 10 = 9) as Hcases by lia.
  repeat (destruct Hcases as [->|Hcases]; [reflexivity|]).
  rewrite Hcases. reflexivity.
Qed.

Lemma pretty_N_go_last (x : N) (s : string) :
  (0 < x < 10)%N → pretty_N_go x s = String (pretty_N_char (x `mod` 10)) s.
Proof.
  intros Hx. rewrite pretty_N_go_step by lia.
  rewrite (N.div_small x 10) by lia. apply pretty_N_go_0.
Qed.

Lemma format_04d_four_digits (n : Z) : 0 <= n <= 9999 → format_04d n = four_digits n.
Proof.
  intros Hn. destruct n as [|p|p]; [reflexivity| |lia].
  unfold four_digits. rewrite !digit_char by (try apply Z.div_pos; lia).
  rewrite !Z2N.inj_div by lia.
  change (Z.to_N (Z.pos p)) with (N.pos p).
  change (Z.to_N 1000) with 1000%N. change (Z.to_N 100) with 100%N.
  change (Z.to_N 10) with 10%N.
  unfold format_04d, pretty, pretty_Z, pretty, pretty_positive, pretty, pretty_N.
  rewrite decide_False by done.
  assert (0 < N.pos p < 10000)%N as Hx by lia. clear Hn.
  generalize dependent (N.pos p). intros x [Hx0 Hx].
  assert (x `div` 100 = (x `div` 10) `div` 10)%N as H100
    by (rewrite N.Div0.div_div; reflexivity).
  assert (x `div` 1000 = ((x `div` 10) `div` 10) `div` 10)%N as H1000
    by (rewrite !N.Div0.div_div; reflexivity).
  rewrite H100, H1000. clear H100 H1000.
  assert (((x `div` 10) `div` 10) `div` 10 < 10)%N as Hq3.
  { rewrite !N.Div0.div_div. apply N.Div0.div_lt_upper_bound. lia. }
  set (q1 := (x `div` 10)%N) in *. set (q2 := (q1 `div` 10)%N) in *.
  set (q3 := (q2 `div` 10)%N) in *.
  rewrite pretty_N_go_step by done. fold q1.
  destruct (decide (q1 = 0%N)) as [E1|N1].
  { assert (q2 = 0%N) as E2 by (subst q2; rewrite E1; reflexivity).
    assert (q3 = 0%N) as E3 by (subst q3; rewrite E2; reflexivity).
    rewrite E1, E2, E3, pretty_N_go_0. reflexivity. }
  rewrite pretty_N_go_step by lia. fold q2.
  destruct (decide (q2 = 0%N)) as [E2|N2].
  { assert (q3 = 0%N) as E3 by (subst q3; rewrite E2; reflexivity).
    rewrite E2, E3, pretty_N_go_0. reflexivity. }
  rewrite pretty_N_go_step by lia. fold q3.
  destruct (decide (q3 = 0%N)) as [E3|N3].
  { rewrite E3, pretty_N_go_0. reflexivity. }
  rewrite pretty_N_go_last by lia. reflexivity.
Qed.

(** On the counter's values the format of the source is the identifier of
    the specification. *)
Lemma format_04d_spec (n : Z) : 0 <= n → "GOD-" +:+ format_04d n = spec_identifier n.
Proof.
  intros Hn. unfold spec_identifier. f_equal.
  destruct (Z.leb_spec n 9999) as [Hle|Hgt].
  - apply format_04d_four_digits. lia.
  - unfold format_04d. destruct n as [|p|p]; try lia.
    unfold zero_fill.
    pose proof (pretty_length_ge_4 (Z.pos p)) as Hlen.
    replace (4 - String.length (pretty (Z.pos p)))%nat with 0%nat by lia.
    reflexivity.
Qed.

Lemma pretty_length_ge_5 (n : Z) : 10000 <= n → (5 <= String.length (pretty n))%nat.
Proof.
  intros Hn. destruct n as [|p|p]; try lia.
  unfold pretty, pretty_Z, pretty, pretty_positive, pretty, pretty_N.
  rewrite decide_False by done.
  assert (10000 <= N.pos p)%N as Hp by lia.
  generalize dependent (N.pos p). intros x Hx.
  assert (1000 <= x `div` 10)%N by (apply N.div_le_lower_bound; lia).
  assert (100 <= (x `div` 10) `div` 10)%N by (apply N.div_le_lower_bound; lia).
  assert (10 <= ((x `div` 10) `div` 10) `div` 10)%N
    by (apply N.div_le_lower_bound; lia).
  assert (1 <= (((x `div` 10) `div` 10) `div` 10) `div` 10)%N
    by (apply N.div_le_lower_bound; lia).
  rewrite 5!pretty_N_go_step by lia.
  etrans; [|apply pretty_N_go_length]. simpl. lia.
Qed.

Lemma digit_inj (a b : Z) : digit a = digit b → a `mod` 10 = b `mod` 10.
Proof.
  unfold digit. intros H.
  pose proof (Z.mod_pos_bound a 10) as Ha. pose proof (Z.mod_pos_bound b 10) as Hb.
  apply (f_equal Ascii.nat_of_ascii) in H.
  rewrite !Ascii.nat_ascii_embedding in H by lia. lia.
Qed.

Lemma four_digits_inj (n m : Z) :
  0 <= n <= 9999 → 0 <= m <= 9999 → four_digits n = four_digits m → n = m.
Proof.
  intros Hn Hm. unfold four_digits. intros [= H3 H2 H1 H0].
  apply digit_inj in H3, H2, H1, H0.
  revert H3 H2 H1 H0. Z.to_euclidean_division_equations. lia.
Qed.

(** Two counter values that are formatted alike are the same value. *)
Lemma format_04d_inj (n m : Z) :
  0 <= n → 0 <= m → format_04d n = format_04d m → n = m.
Proof.
  intros Hn Hm Heq.
  assert (∀ k, 10000 <= k → format_04d k = pretty k) as Hbig.
  { intros k Hk. unfold format_04d. destruct k as [|p|p]; try lia.
    unfold zero_fill. pose proof (pretty_length_ge_4 (Z.pos p)).
    replace (4 - String.length (pretty (Z.pos p)))%nat with 0%nat by lia.
    reflexivity. }
  destruct (Z.le_gt_cases n 9999) as [Hn'|Hn'], (Z.le_gt_cases m 9999) as [Hm'|Hm'].
  - rewrite !format_04d_four_digits in Heq by lia. apply four_digits_inj; auto.
  - rewrite format_04d_four_digits, Hbig in Heq by lia.
    apply (f_equal String.length) in Heq.
    pose proof (pretty_length_ge_5 m). simpl in Heq. lia.
  - rewrite Hbig, format_04d_four_digits in Heq by lia.
    apply (f_equal String.length) in Heq.
    pose proof (pretty_length_ge_5 n). simpl in Heq. lia.
  - rewrite !Hbig in Heq by lia. by apply (inj pretty).
Qed.

(** C4: with the counter at [current], the allocator reads it once, buffers
    the update of the counter to [current + 1] in the running transaction and
    returns the identifier of [current + 1]: the prefix and the number padded
    to four digits, unpadded beyond 9999.  With no counter it first buffers
    its creation at zero and returns "GOD-0001".  The create endpoint commits
    the counter update and the customer document together; on an empty store
    the first create answers "GOD-0001" and the second "GOD-0002". *)
Theorem allocator_returns_next_identifier (s : store) (evs : list event) :
  (∀ fields current,
     counters s !! counter_ref = Some fields →
     fields !! "current_value" = Some current → 0 <= current →
     _generate_sequential_customer_id (Txn s evs []) =
       (Ok (spec_identifier (current + 1)),
        Txn s (evs ++ [ReadCounter counter_ref])
          [UpdateCounter counter_ref {[ "current_value" := current + 1 ]}]) ∧
     ∀ body, truthy (base_customer_id body) = None →
       let c := new_record (base_name body) (spec_identifier (current + 1)) in
       create_customer body s =
         (Ok c,
          Store (<[customer_id c := to_dict c]> (customers s))
                (<[counter_ref := {[ "current_value" := current + 1 ]} ∪ fields]>
                   (counters s)),
          [BeginTransaction; ReadCounter counter_ref;
           CommitTransaction
             [UpdateCounter counter_ref {[ "current_value" := current + 1 ]};
              SetCustomer (customer_id c) (to_dict c)]])) ∧
  (counters s !! counter_ref = None →
     _generate_sequential_customer_id (Txn s evs []) =
       (Ok "GOD-0001",
        Txn s (evs ++ [ReadCounter counter_ref])
          [SetCounter counter_ref {[ "current_value" := 0 ]};
           UpdateCounter counter_ref {[ "current_value" := 1 ]}])) ∧
  (create_customer alice empty_store).1.1 = Ok (new_record "Alice" "GOD-0001") ∧
  (create_customer bob (create_customer alice empty_store).1.2).1.1
    = Ok (new_record "Bob" "GOD-0002") ∧
  spec_identifier 9999 = "GOD-9999" ∧ spec_identifier 10000 = "GOD-10000".
Proof.
  split; [|split; [|repeat split; reflexivity]].
  - intros fields current Hc Hv Hpos. split.
    + rewrite allocator_run, Hc, Hv.
      rewrite format_04d_spec by lia. reflexivity.
    + intros body Hid. cbv zeta.
      rewrite (create_allocated body s Hid), Hc, Hv. cbv zeta.
      rewrite format_04d_spec by lia. reflexivity.
  - intros Hc. rewrite allocator_run, Hc. reflexivity.
Qed.

Lemma allocator_returns_next_identifier_witness :
  _generate_sequential_customer_id (Txn store_alice [BeginTransaction] []) =
    (Ok "GOD-0002",
     Txn store_alice [BeginTransaction; ReadCounter counter_ref]
       [UpdateCounter counter_ref {[ "current_value" := 2 ]}]) ∧
  _generate_sequential_customer_id (Txn empty_store [BeginTransaction] []) =
    (Ok "GOD-0001",
     Txn empty_store [BeginTransaction; ReadCounter counter_ref]
       [SetCounter counter_ref {[ "current_value" := 0 ]};
        UpdateCounter counter_ref {[ "current_value" := 1 ]}]).
Proof.
  split.
  - destruct (allocator_returns_next_identifier store_alice [BeginTransaction])
      as [Hsome _].
    destruct (Hsome {[ "current_value" := 1 ]} 1) as [Hrun _];
      [reflexivity|reflexivity|lia|].
    exact Hrun.
  - destruct (allocator_returns_next_identifier empty_store [BeginTransaction])
      as (_ & Hnone & _).
    apply Hnone. reflexivity.
Defined.

(** ** The allocator's identifiers *)

(** What a request does with the allocator: nothing, and the counters are
    as before; or it is a create without a requested identifier that
    answers the identifier of the counter's value plus one and stores that
    value in the counter. *)
Lemma handle_allocator (r : request) (s : store) :
  (allocated_identifier r s = None ∧ allocations (handle r s).2 = [] ∧
   counters (handle r s).1.2 = counters s) ∨
  (asks_allocator r = true ∧
   allocated_identifier r s = Some ("GOD-" +:+ format_04d (counter_value s + 1)) ∧
   allocations (handle r s).2 = [counter_value s + 1] ∧
   counter_value (handle r s).1.2 = counter_value s + 1 ∧
   counter_kept (handle r s).1.2).
Proof.
  unfold allocated_identifier.
  destruct r as [body|id x|id x|id]; unfold handle, asks_allocator.
  - destruct (truthy (base_customer_id body)) as [id|] eqn:Hid.
    + left. rewrite (create_requested body id s Hid).
      destruct (valid_path id); [|done].
      destruct (customers s !! id); done.
    + rewrite (create_allocated body s Hid). unfold counter_value, counter_kept.
      destruct (counters s !! counter_ref) as [fields|] eqn:Hc.
      * destruct (fields !! "current_value") as [current|] eqn:Hv; [|by left].
        right. cbn [with_record fst snd customer_id new_record counters].
        split; [done|]. split; [done|]. split.
        { unfold allocations. simpl. by rewrite lookup_singleton_eq. }
        rewrite lookup_insert_eq.
        assert ((({[ "current_value" := current + 1 ]} : gmap string Z) ∪ fields)
                  !! "current_value" = Some (current + 1)) as Hnew.
        { apply lookup_union_Some_l, lookup_singleton_eq. }
        rewrite Hnew. split; [done|]. intros ? [= <-]. by rewrite Hnew.
      * right. cbn [with_record fst snd customer_id new_record counters].
        split; [done|]. split; [done|]. split; [done|].
        rewrite lookup_insert_eq, lookup_singleton_eq. split; [done|].
        intros ? [= <-]. by rewrite lookup_singleton_eq.
  - left. destruct (validate_amount x) as [ta|]; [|done].
    destruct (top_up_cases s id ta) as [(e & evs & -> & Hc)|(d & tu & b & c & _ & ->)];
      simpl; [|done].
    unfold allocations. by rewrite Hc.
  - left. destruct (validate_amount x) as [ta|]; [|done].
    destruct (spend_cases s id ta) as [(e & evs & -> & Hc)|(d & ts & b & c & _ & ->)];
      simpl; [|done].
    unfold allocations. by rewrite Hc.
  - left. unfold delete_customer. by destruct (customers s !! id).
Qed.

(** With the counter document in order, the allocator does not fail. *)
Lemma allocator_answers (r : request) (s : store) :
  asks_allocator r = true → counter_kept s → is_Some (allocated_identifier r s).
Proof.
  unfold allocated_identifier.
  destruct r as [body|id x|id x|id]; try discriminate.
  unfold handle, asks_allocator, counter_kept.
  destruct (truthy (base_customer_id body)) as [id|] eqn:Hid; [discriminate|].
  intros _ Hkept. rewrite (create_allocated body s Hid).
  destruct (counters s !! counter_ref) as [fields|]; [|by eexists].
  destruct (Hkept fields eq_refl) as [current ->]. by eexists.
Qed.

Lemma counter_value_counters (s s' : store) :
  counters s' = counters s → counter_value s' = counter_value s ∧
                             (counter_kept s → counter_kept s').
Proof. unfold counter_value, counter_kept. by intros ->. Qed.

(** C3: every identifier the allocator gives out is that of the counter's
    value plus one, an absent counter counting as zero, and that value is
    stored in the counter.  So the identifiers answered by the creates
    without a requested identifier, while any sequence of requests is
    served, are those of the consecutive numbers that follow the counter's
    first value, the counter ends at the last of them, and the updates of the
    counter that reached the store are these numbers: each is greater than
    all the earlier ones.  While the counter document is in order every
    such create is given an identifier, and from a counter that is not
    negative no identifier is given out twice. *)
Theorem allocated_numbers_increase (rs : list request) (s : store) :
  let ids := allocated_identifiers rs s in
  let k := Z.of_nat (length ids) in
  ids = (λ n, "GOD-" +:+ format_04d n) <$> seqZ (counter_value s + 1) k ∧
  allocations (trace rs s) = seqZ (counter_value s + 1) k ∧
  counter_value (serve rs s) = counter_value s + k ∧
  StronglySorted Z.lt (allocations (trace rs s)) ∧
  (counter_kept s → length ids = length (List.filter asks_allocator rs)) ∧
  (0 <= counter_value s → NoDup ids).
Proof.
  cbv zeta.
  assert (allocated_identifiers rs s
            = (λ n, "GOD-" +:+ format_04d n)
                <$> seqZ (counter_value s + 1)
                      (Z.of_nat (length (allocated_identifiers rs s))) ∧
          allocations (trace rs s)
            = seqZ (counter_value s + 1)
                (Z.of_nat (length (allocated_identifiers rs s))) ∧
          counter_value (serve rs s)
            = counter_value s + Z.of_nat (length (allocated_identifiers rs s)) ∧
          (counter_kept s →
           length (allocated_identifiers rs s)
             = length (List.filter asks_allocator rs)))
    as (Hids & Hns & Hcv & Hall).
  { revert s. induction rs as [|r rs IH]; intros s.
    - simpl. split; [done|]. split; [done|]. split; [lia|done].
    - destruct (IH (handle r s).1.2) as (IH1 & IH2 & IH3 & IH4).
      cbn [allocated_identifiers trace serve List.filter].
      rewrite allocations_app, length_app.
      destruct (handle_allocator r s)
        as [(Hnone & Hns & Hc)|(Hasks & Hsome & Hns & Hc & Hkept)];
        rewrite ?Hnone, ?Hsome, Hns; simpl option_list; cbn [length app Nat.add].
      + destruct (counter_value_counters s _ Hc) as [Hc' Hkept].
        rewrite Hc' in *. repeat split; [done..|].
        intros Hs. destruct (asks_allocator r) eqn:Hasks.
        * destruct (allocator_answers r s Hasks Hs) as [? ?]. congruence.
        * auto.
      + rewrite Hc in *.
        rewrite !(seqZ_cons (counter_value s + 1)) by lia.
        replace (Z.pred (Z.of_nat (S (length (allocated_identifiers rs (handle r s).1.2)))))
          with (Z.of_nat (length (allocated_identifiers rs (handle r s).1.2))) by lia.
        replace (Z.succ (counter_value s + 1)) with (counter_value s + 1 + 1) by lia.
        rewrite fmap_cons, <- IH1, <- IH2, Hasks. cbn [length].
        repeat split; [lia|]. intros _. f_equal. auto. }
  split; [exact Hids|]. split; [exact Hns|]. split; [exact Hcv|].
  split; [rewrite Hns; apply seqZ_sorted|]. split; [exact Hall|].
  intros Hpos. rewrite Hids. apply NoDup_fmap_2_strong; [|apply NoDup_seqZ].
  intros n m Hn%elem_of_seqZ Hm%elem_of_seqZ [= Heq].
  apply format_04d_inj in Heq; lia.
Qed.

Lemma allocated_numbers_increase_witness :
  allocated_identifiers
    [PostCustomers alice; PostCustomers (vip "X"); PutTopUp "GOD-0001" 5;
     PostCustomers bob] empty_store = ["GOD-0001"; "GOD-0002"] ∧
  NoDup (allocated_identifiers
    [PostCustomers alice; PostCustomers (vip "X"); PutTopUp "GOD-0001" 5;
     PostCustomers bob] empty_store).
Proof.
  destruct (allocated_numbers_increase
              [PostCustomers alice; PostCustomers (vip "X"); PutTopUp "GOD-0001" 5;
               PostCustomers bob] empty_store) as (Hids & _ & _ & _ & _ & Hdup).
  split; [rewrite Hids; reflexivity|apply Hdup; reflexivity].
Defined.

(** ** Create *)

(** C6, as stated, fails: a create that supplies the empty string as its
    identifier succeeds and increments the counter. *)
Lemma empty_requested_id_increments_counter :
  ¬ (∀ body s c s' evs,
       create_customer body s = (Ok c, s', evs) →
       (counter_value s' = counter_value s + 1 ↔ base_customer_id body = None)).
Proof.
  intros H.
  assert (create_customer (unnamed_id "X") empty_store =
            (Ok (new_record "X" "GOD-0001"),
             (create_customer (unnamed_id "X") empty_store).1.2,
             (create_customer (unnamed_id "X") empty_store).2)) as Hrun
    by reflexivity.
  destruct (H _ _ _ _ _ Hrun) as [Hnone _].
  discriminate Hnone. reflexivity.
Qed.

(** C6, amended: a successful create leaves at the final identifier the
    document holding the given name, the identifier itself and three zero
    amounts, and answers that record; it increments the counter exactly when
    the requested identifier is missing or empty, and otherwise leaves the
    counters alone. *)
Theorem create_writes_record (body : CustomerBase) (s : store) (c : Customer)
    (s' : store) (evs : list event) :
  create_customer body s = (Ok c, s', evs) →
  c = new_record (base_name body) (customer_id c) ∧
  customers s' = <[customer_id c := to_dict c]> (customers s) ∧
  customers s' !! customer_id c = Some (to_dict c) ∧
  (counter_value s' = counter_value s + 1
     ↔ base_customer_id body = None ∨ base_customer_id body = Some "") ∧
  (counters s' = counters s
     ↔ ∃ id, base_customer_id body = Some id ∧ id ≠ "").
Proof.
  intros H.
  destruct (create_ok body s c s' evs H) as (final_id & -> & Hs & Hpath).
  simpl. split; [reflexivity|]. split; [exact Hs|].
  split; [by rewrite Hs, lookup_insert_eq|].
  unfold truthy in Hpath.
  destruct Hpath as [(Hid & _ & Hc & _)|(Hid & _ & Hc & _)].
  - destruct (base_customer_id body) as [[|a id]|]; try discriminate.
    split; split.
    + unfold counter_value. rewrite Hc. lia.
    + intros [?|?]; discriminate.
    + by exists (String a id).
    + done.
  - split; split.
    + destruct (base_customer_id body) as [[|a id]|]; try discriminate; auto.
    + done.
    + intros Heq. unfold counter_value in Hc. rewrite Heq in Hc. lia.
    + intros (id & Hsome & Hne). rewrite Hsome in Hid.
      destruct id; [done|discriminate].
Qed.

Lemma create_writes_record_witness :
  (∃ c s', (create_customer (vip "X") store_alice).1 = (Ok c, s') ∧
     customers s' !! "VIP-1" = Some (to_dict c) ∧
     c = new_record "X" "VIP-1" ∧ counters s' = counters store_alice) ∧
  (∃ c s', (create_customer bob store_alice).1 = (Ok c, s') ∧
     customers s' !! "GOD-0002" = Some (to_dict c) ∧
     c = new_record "Bob" "GOD-0002" ∧
     counter_value s' = counter_value store_alice + 1).
Proof.
  split.
  - assert (create_customer (vip "X") store_alice =
              (Ok (new_record "X" "VIP-1"),
               (create_customer (vip "X") store_alice).1.2,
               (create_customer (vip "X") store_alice).2)) as Hrun
      by reflexivity.
    destruct (create_writes_record _ _ _ _ _ Hrun) as (_ & _ & Hd & _ & Hc).
    eexists _, _. split; [rewrite Hrun at 1; reflexivity|].
    split; [exact Hd|]. split; [reflexivity|].
    apply Hc. exists "VIP-1". split; [reflexivity|discriminate].
  - assert (create_customer bob store_alice =
              (Ok (new_record "Bob" "GOD-0002"),
               (create_customer bob store_alice).1.2,
               (create_customer bob store_alice).2)) as Hrun
      by reflexivity.
    destruct (create_writes_record _ _ _ _ _ Hrun) as (_ & _ & Hd & Hc & _).
    eexists _, _. split; [rewrite Hrun at 1; reflexivity|].
    split; [exact Hd|]. split; [reflexivity|].
    apply Hc. by left.
Defined.

(** C7, as stated, fails: two successive creates that both supply the empty
    string as their identifier both succeed, under allocated identifiers;
    the document of the supplied identifier is never read. *)
Lemma empty_requested_id_never_collides :
  create_customer (unnamed_id "X") empty_store =
    (Ok (new_record "X" "GOD-0001"),
     (create_customer (unnamed_id "X") empty_store).1.2,
     [BeginTransaction; ReadCounter counter_ref;
      CommitTransaction
        [SetCounter counter_ref {[ "current_value" := 0 ]};
         UpdateCounter counter_ref {[ "current_value" := 1 ]};
         SetCustomer "GOD-0001" (to_dict (new_record "X" "GOD-0001"))]]) ∧
  (create_customer (unnamed_id "Y")
     (create_customer (unnamed_id "X") empty_store).1.2).1.1
    = Ok (new_record "Y" "GOD-0002") ∧
  (create_customer (unnamed_id "Y")
     (create_customer (unnamed_id "X") empty_store).1.2).1.1
    ≠ already_exists "".
Proof. split; [|split]; [reflexivity..|discriminate]. Qed.

(** A requested identifier with one "/" in it is no document path: the
    create fails with status 500 before anything is read, whether or not it
    is repeated, and nothing is stored. *)
Lemma slash_in_requested_id_is_refused (s : store) :
  create_customer (slashed "X") s =
    (Raise (HTTPException 500
       "Error creating customer: A document must have an even number of path elements"),
     s, [BeginTransaction; RollbackTransaction]) ∧
  (create_customer (slashed "Y") (create_customer (slashed "X") s).1.2).1.1
    ≠ already_exists "a/b".
Proof.
  assert (∀ n s', create_customer (slashed n) s' =
            (Raise (HTTPException 500
               "Error creating customer: A document must have an even number of path elements"),
             s', [BeginTransaction; RollbackTransaction])) as Hrun.
  { intros n s'. by rewrite (create_requested (slashed n) "a/b" s'). }
  split; [apply Hrun|]. rewrite !Hrun. discriminate.
Qed.

(** C7, amended: a create that requests a non-empty identifier which names a
    document of the collection (no "/", and none of the names the store
    reserves) reads the document of that identifier in its transaction; when
    the document exists it fails with status 409, the transaction is rolled
    back after that single read, begun once, and the store, counters
    included, is unchanged.  Of two successive creates that request the same
    such identifier the second fails with status 409. *)
Theorem create_rejects_taken_identifier (body : CustomerBase) (id : string) (s : store) :
  base_customer_id body = Some id → id ≠ "" → valid_document_id id = true →
  (∀ d, customers s !! id = Some d →
     create_customer body s =
       (already_exists id, s,
        [BeginTransaction; ReadCustomer id; RollbackTransaction])) ∧
  (∀ body', base_customer_id body' = Some id →
     create_customer body' (create_customer body s).1.2 =
       (already_exists id, (create_customer body s).1.2,
        [BeginTransaction; ReadCustomer id; RollbackTransaction])).
Proof.
  intros Hid Hne Hvalid.
  assert (∀ b, base_customer_id b = Some id → truthy (base_customer_id b) = Some id)
    as Htruthy.
  { intros b ->. destruct id; [done|reflexivity]. }
  assert (valid_path id = true) as Hpath.
  { apply direct_child_valid_path. unfold valid_document_id in Hvalid.
    by rewrite !andb_true_iff in Hvalid; destruct Hvalid as [[[[? _] _] _] _]. }
  split.
  - intros d Hd. rewrite (create_requested body id s) by auto. by rewrite Hpath, Hd.
  - intros body' Hid'.
    rewrite (create_requested body' id) by auto.
    rewrite (create_requested body id s) by auto.
    rewrite Hpath.
    destruct (customers s !! id) as [d|] eqn:Hd; cbn [fst snd customers].
    + by rewrite Hd.
    + by rewrite lookup_insert_eq.
Qed.

Lemma create_rejects_taken_identifier_witness :
  create_customer (vip "Y") (create_customer (vip "X") empty_store).1.2 =
    (already_exists "VIP-1", (create_customer (vip "X") empty_store).1.2,
     [BeginTransaction; ReadCustomer "VIP-1"; RollbackTransaction]).
Proof.
  apply (create_rejects_taken_identifier (vip "X") "VIP-1" empty_store);
    [reflexivity|discriminate|reflexivity|reflexivity].
Defined.

(** ** Two concurrent top-ups *)

(** *** The abstract machine *)

Ltac listed :=
  match goal with
  | |- ?x ∈ ?l => apply (bool_decide_eq_true_1 (x ∈ l)); vm_compute; reflexivity
  end.

Lemma closed_step (l : list abstract) (a : abstract) (who : caller) :
  closed l = true → a ∈ l → abstract_step a who ∈ l.
Proof.
  unfold closed. rewrite forallb_forall. intros Hl Ha.
  apply list_elem_of_In, Hl in Ha.
  apply andb_true_iff in Ha as [H1 H2].
  apply bool_decide_eq_true in H1, H2. by destruct who.
Qed.

Lemma closed_run (l : list abstract) (schedule : list caller) (a : abstract) :
  closed l = true → a ∈ l → abstract_run schedule a ∈ l.
Proof.
  intros Hl. revert a. induction schedule as [|who schedule IH]; intros a Ha; [done|].
  simpl. apply IH. by apply closed_step.
Qed.

Lemma checked_on (P : abstract → bool) (l : list abstract) (a : abstract) :
  forallb P l = true → a ∈ l → P a = true.
Proof.
  rewrite forallb_forall. intros Hl Ha. by apply Hl, list_elem_of_In.
Qed.

Lemma reachable_closed : closed reachable_states = true.
Proof. vm_compute. reflexivity. Qed.

Lemma start_reachable : abstract_start ∈ reachable_states.
Proof. unfold reachable_states. apply list_elem_of_here. Qed.

(** Every step of a caller lowers its potential, and no step of the other
    caller raises it. *)
Lemma potential_step (a : abstract) (w who : caller) :
  a ∈ reachable_states →
  (potential (abstract_step a w) who
     <= potential a who - (if decide (w = who) then 1 else 0))%nat.
Proof.
  intros Ha.
  assert (forallb (λ x, forallb (λ p : caller * caller,
            Nat.leb (potential (abstract_step x p.1) p.2)
              (potential x p.2 - (if decide (p.1 = p.2) then 1 else 0)))
            [(First, First); (First, Second); (Second, First); (Second, Second)])
            reachable_states = true) as Hcheck
    by (vm_compute; reflexivity).
  pose proof (checked_on _ _ a Hcheck Ha) as Hx. cbv beta in Hx.
  rewrite forallb_forall in Hx.
  apply Nat.leb_le, (Hx (w, who)).
  destruct w, who; simpl; auto.
Qed.

Lemma potential_decreases (schedule : list caller) (a : abstract) (who : caller) :
  a ∈ reachable_states →
  (potential (abstract_run schedule a) who <= potential a who - turns who schedule)%nat.
Proof.
  revert a. induction schedule as [|w schedule IH]; intros a Ha.
  - unfold turns. simpl. lia.
  - pose proof (closed_step _ a w reachable_closed Ha) as Ha'.
    specialize (IH _ Ha').
    pose proof (potential_step a w who Ha) as Hstep.
    change (abstract_run (w :: schedule) a)
      with (abstract_run schedule (abstract_step a w)).
    unfold turns in *. rewrite filter_cons.
    destruct (decide (w = who)); simpl; lia.
Qed.

Lemma potential_zero (a : abstract) (who : caller) :
  potential a who = 0%nat → phase_returned (phase_of a who) = true.
Proof.
  unfold potential. destruct (phase_of a who); simpl; try done;
    repeat case_match; discriminate.
Qed.

(** *** The calls and the store behind an abstract state *)

Lemma top_up_body (s : store) (id : string) (d : gmap string value) (c : Customer)
    (a : float) :
  customers s !! id = Some d →
  parse_customer d = Some c →
  top_up.update_in_transaction id a (Txn s [BeginTransaction] []) =
    (Ok (with_top_up c (total_top_up c + a) (balance c + a)),
     Txn s [BeginTransaction; ReadCustomer id]
       [UpdateCustomer id (top_up_fields (total_top_up c + a) (balance c + a))]).
Proof.
  intros Hd Hc.
  destruct (parse_customer_fields d c Hc) as (_ & _ & Htu & _ & Hb).
  unfold top_up.update_in_transaction.
  run_body. rewrite Hd. run_body. rewrite Htu, Hb. run_body.
  rewrite (parse_customer_insert_top_up d c _ _ Hc). reflexivity.
Qed.

Lemma stamps_after_lookup (path : string) (k : nat) :
  default 0%nat (stamps_after path k !! path) = k.
Proof. destruct k; simpl; [done|]. by rewrite lookup_insert_eq. Qed.

Section TwoTopUps.

Variables (s : store) (id : string) (d : gmap string value) (c : Customer) (a : float).
Hypothesis Hd : customers s !! id = Some d.
Hypothesis Hc : parse_customer d = Some c.

Lemma topped_up_doc_parse (k : nat) :
  parse_customer (topped_up_doc d c a k) = Some (topped_up c a k).
Proof.
  induction k as [|k IH]; simpl; [exact Hc|].
  unfold next_fields. rewrite top_up_fields_union.
  by apply parse_customer_insert_top_up.
Qed.

Lemma topped_up_store_lookup (k : nat) :
  customers (topped_up_store s id d c a k) !! id = Some (topped_up_doc d c a k).
Proof. unfold topped_up_store. simpl. by rewrite lookup_insert_eq. Qed.

Lemma start_concrete : start s = concrete s id d c a abstract_start.
Proof.
  unfold start, concrete, unversioned, topped_up_store. simpl.
  rewrite insert_id by exact Hd. by destruct s.
Qed.

Lemma attempt_concrete (k : nat) (p : phase) :
  phase_began_ok k p = true →
  attempt (top_up.update_in_transaction id a)
    (Versioned (topped_up_store s id d c a k) k
       (stamps_after ("customers/" +:+ id) k))
    (concrete_call s id d c a p) =
  (Versioned (topped_up_store s id d c a (phase_step k p).1) (phase_step k p).1
     (stamps_after ("customers/" +:+ id) (phase_step k p).1),
   concrete_call s id d c a (phase_step k p).2).
Proof.
  intros Hok. destruct p as [n|n j|n i]; simpl.
  - rewrite (top_up_body _ id _ _ a (topped_up_store_lookup k) (topped_up_doc_parse k)).
    reflexivity.
  - unfold fresh. simpl. rewrite stamps_after_lookup, andb_true_r.
    apply Nat.leb_le in Hok.
    destruct (Nat.leb_spec k j) as [Hle|Hgt]; [|reflexivity].
    assert (j = k) as -> by lia. simpl.
    unfold topped_up_store at 1. simpl. rewrite lookup_insert_eq.
    unfold topped_up_store. simpl. by rewrite insert_insert_eq.
  - reflexivity.
Qed.

Lemma step_concrete (x : abstract) (who : caller) :
  phase_began_ok (finished x) (phase_first x) = true →
  phase_began_ok (finished x) (phase_second x) = true →
  step (top_up.update_in_transaction id a) (concrete s id d c a x) who
    = concrete s id d c a (abstract_step x who).
Proof.
  intros H1 H2. destruct x as [k p1 p2]. simpl in *.
  destruct who; unfold step, abstract_step, concrete; simpl.
  - rewrite (attempt_concrete k p1 H1). by destruct (phase_step k p1).
  - rewrite (attempt_concrete k p2 H2). by destruct (phase_step k p2).
Qed.

Lemma reachable_began_ok (x : abstract) :
  x ∈ reachable_states →
  phase_began_ok (finished x) (phase_first x) = true ∧
  phase_began_ok (finished x) (phase_second x) = true.
Proof.
  intros Hx. apply andb_true_iff.
  apply (checked_on (λ x, phase_began_ok (finished x) (phase_first x)
                          && phase_began_ok (finished x) (phase_second x))
           reachable_states x);
    [vm_compute; reflexivity|exact Hx].
Qed.

Lemma run_concrete (schedule : list caller) (x : abstract) :
  x ∈ reachable_states →
  run (top_up.update_in_transaction id a) schedule (concrete s id d c a x)
    = concrete s id d c a (abstract_run schedule x).
Proof.
  revert x. induction schedule as [|who schedule IH]; intros x Hx; [done|].
  destruct (reachable_began_ok x Hx) as [H1 H2].
  unfold run, abstract_run. simpl. rewrite step_concrete by done.
  apply IH. apply closed_step; [apply reachable_closed|exact Hx].
Qed.

End TwoTopUps.

(** *** Both top-ups take effect *)

Lemma concrete_call_returned (s : store) (id : string) (d : gmap string value)
    (c : Customer) (a : float) (p : phase) :
  returned (concrete_call s id d c a p) = phase_returned p ∧
  retries_of (concrete_call s id d c a p) = phase_retries p.
Proof. by destruct p. Qed.

Lemma overlap_retries (schedule : list caller) (w1 w2 : caller) :
  let x := abstract_run (w1 :: w2 :: schedule) abstract_start in
  phase_returned (phase_first x) = true →
  phase_returned (phase_second x) = true →
  (phase_retries (phase_first x) + phase_retries (phase_second x))%nat
    = if decide (w1 = w2) then 0%nat else 1%nat.
Proof.
  cbv zeta.
  change (abstract_run (w1 :: w2 :: schedule) abstract_start)
    with (abstract_run schedule
            (abstract_step (abstract_step abstract_start w1) w2)).
  assert (∀ l x n, closed l = true → x ∈ l →
            forallb (λ y, implb (phase_returned (phase_first y)
                                 && phase_returned (phase_second y))
                            (Nat.eqb (phase_retries (phase_first y)
                                      + phase_retries (phase_second y)) n)) l = true →
            phase_returned (phase_first (abstract_run schedule x)) = true →
            phase_returned (phase_second (abstract_run schedule x)) = true →
            (phase_retries (phase_first (abstract_run schedule x))
             + phase_retries (phase_second (abstract_run schedule x)))%nat = n) as Hlist.
  { intros l x n Hl Hx Hcheck H1 H2.
    pose proof (checked_on _ l _ Hcheck (closed_run l schedule x Hl Hx)) as H.
    cbv beta in H. rewrite H1, H2 in H. simpl in H. by apply Nat.eqb_eq. }
  destruct w1, w2; simpl decide; cbv iota.
  - apply (Hlist after_first_alone); [vm_compute; reflexivity|listed|vm_compute; reflexivity].
  - apply (Hlist after_overlap); [vm_compute; reflexivity|listed|vm_compute; reflexivity].
  - apply (Hlist after_overlap); [vm_compute; reflexivity|listed|vm_compute; reflexivity].
  - apply (Hlist after_second_alone); [vm_compute; reflexivity|listed|vm_compute; reflexivity].
Qed.

Lemma reachable_settled (schedule : list caller) :
  settled (abstract_run schedule abstract_start) = true.
Proof.
  apply (checked_on settled reachable_states); [vm_compute; reflexivity|].
  apply closed_run; [apply reachable_closed|apply start_reachable].
Qed.

Lemma topped_up_balance (c : Customer) :
  balance c = 0%float →
  balance (topped_up c 10 0) = 0%float ∧
  balance (topped_up c 10 1) = 10%float ∧
  balance (topped_up c 10 2) = 20%float.
Proof. intros H. simpl. rewrite H. repeat split; reflexivity. Qed.

(** C9: two concurrent top-ups of 10 of a customer whose balance is 0, under
    any interleaving of their steps.  In every state the stored balance is
    10 for each commit made, and a call has returned exactly when its commit
    was made.  Once both calls have returned, both succeeded, one answering
    balance 10 and the other 20, the stored balance is 20, and at most one
    of them was retried: exactly one when both had begun before either
    committed, none when one call returned before the other began.  Both
    calls have returned as soon as each has been given four steps. *)
Theorem concurrent_top_ups_add_up (s : store) (id : string) (d : gmap string value)
    (c : Customer) (schedule : list caller) :
  customers s !! id = Some d →
  parse_customer d = Some c →
  balance c = 0%float →
  let sys := run (top_up.update_in_transaction id 10) schedule (start s) in
  (∃ d' c', customers (contents (db sys)) !! id = Some d' ∧
     parse_customer d' = Some c' ∧
     commits (db sys)
       = (Nat.b2n (returned (first sys)) + Nat.b2n (returned (second sys)))%nat ∧
     balance c' = match commits (db sys) with
                  | 0%nat => 0%float
                  | 1%nat => 10%float
                  | _ => 20%float
                  end ∧
     (returned (first sys) = true → returned (second sys) = true →
      balance c' = 20%float ∧
      ∃ n1 n2 c1 c2,
        first sys = Returned n1 (Ok c1) ∧ second sys = Returned n2 (Ok c2) ∧
        (n1 + n2 <= 1)%nat ∧
        (balance c1 = 10%float ∧ balance c2 = 20%float ∨
         balance c1 = 20%float ∧ balance c2 = 10%float) ∧
        ∀ w1 w2 rest, schedule = w1 :: w2 :: rest →
          (n1 + n2)%nat = if decide (w1 = w2) then 0%nat else 1%nat)) ∧
  ((4 <= turns First schedule)%nat → (4 <= turns Second schedule)%nat →
   returned (first sys) = true ∧ returned (second sys) = true).
Proof.
  intros Hd Hc Hb sys. subst sys.
  rewrite (start_concrete s id d c 10 Hd).
  rewrite (run_concrete s id d c 10 Hc) by apply start_reachable.
  pose proof (reachable_settled schedule) as Hsettled.
  pose proof (overlap_retries) as Hoverlap.
  pose proof (potential_decreases schedule abstract_start First start_reachable) as Hp1.
  pose proof (potential_decreases schedule abstract_start Second start_reachable) as Hp2.
  destruct (topped_up_balance c Hb) as (Hb0 & Hb1 & Hb2).
  set (x := abstract_run schedule abstract_start) in *.
  unfold concrete. cbn [db first second contents commits].
  destruct (concrete_call_returned s id d c 10 (phase_first x)) as [-> _].
  destruct (concrete_call_returned s id d c 10 (phase_second x)) as [-> _].
  unfold settled in Hsettled.
  apply andb_true_iff in Hsettled as [Hk Hboth]. apply Nat.eqb_eq in Hk.
  split.
  - exists (topped_up_doc d c 10 (finished x)), (topped_up c 10 (finished x)).
    split; [apply topped_up_store_lookup|].
    split; [by apply topped_up_doc_parse|].
    split; [exact Hk|].
    split.
    { destruct (finished x) as [|[|[|k]]]; try done.
      destruct (phase_returned (phase_first x)), (phase_returned (phase_second x));
        simpl in Hk; lia. }
    intros H1 H2. rewrite H1, H2 in Hboth, Hk. simpl in Hboth, Hk.
    rewrite Hk. split; [exact Hb2|].
    destruct (phase_first x) as [|?|n1 i1] eqn:E1; try discriminate.
    destruct (phase_second x) as [|?|n2 i2] eqn:E2; try discriminate.
    apply andb_true_iff in Hboth as [Hn Hi]. apply Nat.leb_le in Hn.
    exists n1, n2, (topped_up c 10 i1), (topped_up c 10 i2).
    split; [reflexivity|]. split; [reflexivity|]. split; [exact Hn|].
    split.
    + apply orb_true_iff in Hi as [Hi|Hi]; apply andb_true_iff in Hi as [Hi1 Hi2];
        apply Nat.eqb_eq in Hi1, Hi2; subst i1 i2; auto.
    + intros w1 w2 rest ->.
      specialize (Hoverlap rest w1 w2). cbv zeta in Hoverlap.
      fold x in Hoverlap. rewrite E1, E2 in Hoverlap. by apply Hoverlap.
  - intros Ht1 Ht2.
    change (potential abstract_start First) with 4%nat in Hp1.
    change (potential abstract_start Second) with 4%nat in Hp2.
    split; [apply (potential_zero x First)|apply (potential_zero x Second)]; lia.
Qed.

Lemma concurrent_top_ups_add_up_witness :
  ∃ d' c',
    customers (contents (db (run (top_up.update_in_transaction "GOD-0001" 10)
      [First; Second; First; Second; Second; Second; First; First]
      (start store_alice)))) !! "GOD-0001" = Some d' ∧
    parse_customer d' = Some c' ∧ balance c' = 20%float.
Proof.
  assert (customers store_alice !! "GOD-0001"
            = Some (to_dict (new_record "Alice" "GOD-0001"))) as Hstore
    by reflexivity.
  destruct (concurrent_top_ups_add_up store_alice "GOD-0001"
              (to_dict (new_record "Alice" "GOD-0001")) (new_record "Alice" "GOD-0001")
              [First; Second; First; Second; Second; Second; First; First]
              Hstore (parse_customer_to_dict _) eq_refl)
    as [(d' & c' & Hd & Hc & _ & _ & Hboth) Hlive].
  destruct Hlive as [H1 H2]; [vm_compute; lia..|].
  destruct (Hboth H1 H2) as [Hb _].
  exists d', c'. split; [exact Hd|]. split; [exact Hc|exact Hb].
Defined.

(** * Further properties of the endpoints *)

(** ** Documents that are not customer records *)

Lemma parse_customer_insert_top_up_none (d : gmap string value) (t b t' b' : float) :
  parse_customer d = None →
  dict_get d "total_top_up" = VNum t → dict_get d "balance" = VNum b →
  parse_customer (<["balance" := VNum b']> (<["total_top_up" := VNum t']> d)) = None.
Proof.
  unfold parse_customer, str_field, float_field, dict_get.
  rewrite !lookup_insert_eq.
  rewrite !(lookup_insert_ne _ "balance") by done.
  rewrite !lookup_insert_eq.
  rewrite !(lookup_insert_ne _ "total_top_up") by done.
  destruct (d !! "id"); [done|].
  destruct (d !! "name") as [[]|]; simpl; try done;
  destruct (d !! "customer_id") as [[]|]; simpl; try done;
  destruct (d !! "total_top_up") as [[]|]; simpl; try done;
  destruct (d !! "total_spent") as [[]|]; simpl; try done;
  destruct (d !! "balance") as [[]|]; simpl; done.
Qed.

Lemma parse_customer_insert_spent_none (d : gmap string value) (t b t' b' : float) :
  parse_customer d = None →
  dict_get d "total_spent" = VNum t → dict_get d "balance" = VNum b →
  parse_customer (<["balance" := VNum b']> (<["total_spent" := VNum t']> d)) = None.
Proof.
  unfold parse_customer, str_field, float_field, dict_get.
  rewrite !lookup_insert_eq.
  rewrite !(lookup_insert_ne _ "balance") by done.
  rewrite !lookup_insert_eq.
  rewrite !(lookup_insert_ne _ "total_spent") by done.
  destruct (d !! "id"); [done|].
  destruct (d !! "name") as [[]|]; simpl; try done;
  destruct (d !! "customer_id") as [[]|]; simpl; try done;
  destruct (d !! "total_top_up") as [[]|]; simpl; try done;
  destruct (d !! "total_spent") as [[]|]; simpl; try done;
  destruct (d !! "balance") as [[]|]; simpl; done.
Qed.

(** A top-up of a document that is not a customer record fails with status
    500 after its read, whether the failure is met in the arithmetic or when
    the answer is built, and nothing is committed. *)
Lemma top_up_malformed (s : store) (id : string) (d : gmap string value)
    (ta : TransactionAmount) :
  customers s !! id = Some d →
  parse_customer d = None →
  ∃ detail, top_up_customer_balance id ta s =
    (Raise (HTTPException 500 detail), s,
     [BeginTransaction; ReadCustomer id; RollbackTransaction]).
Proof.
  intros Hd Hc.
  unfold top_up_customer_balance, guarded, transactional, top_up.update_in_transaction.
  run_body. rewrite Hd. run_body.
  destruct (dict_get d "total_top_up") as [?|t] eqn:Ht; run_body; [eauto|].
  destruct (dict_get d "balance") as [?|b] eqn:Hb; run_body; [eauto|].
  rewrite (parse_customer_insert_top_up_none d t b) by done. run_body. eauto.
Qed.

(** A spend compares the balance before anything else: a document whose
    balance is a number less than the amount is answered 400 even when it is
    not a customer record. *)
Lemma spend_insufficient_raw (s : store) (id : string) (d : gmap string value)
    (b : float) (ta : TransactionAmount) :
  customers s !! id = Some d →
  dict_get d "balance" = VNum b →
  (b <? amount ta)%float = true →
  spend_customer_balance id ta s =
    (Raise (HTTPException 400 "Insufficient balance"), s,
     [BeginTransaction; ReadCustomer id; RollbackTransaction]).
Proof.
  intros Hd Hb Hlt.
  unfold spend_customer_balance, guarded, transactional, spend.update_in_transaction.
  run_body. rewrite Hd. run_body. rewrite Hb. run_body. rewrite Hlt. reflexivity.
Qed.

Lemma spend_malformed (s : store) (id : string) (d : gmap string value)
    (ta : TransactionAmount) :
  customers s !! id = Some d →
  parse_customer d = None →
  (∀ b, dict_get d "balance" = VNum b → (b <? amount ta)%float = false) →
  ∃ detail, spend_customer_balance id ta s =
    (Raise (HTTPException 500 detail), s,
     [BeginTransaction; ReadCustomer id; RollbackTransaction]).
Proof.
  intros Hd Hc Hlt.
  unfold spend_customer_balance, guarded, transactional, spend.update_in_transaction.
  run_body. rewrite Hd. run_body.
  destruct (dict_get d "balance") as [?|b] eqn:Hb; run_body; [eauto|].
  rewrite (Hlt b eq_refl). run_body.
  destruct (dict_get d "total_spent") as [?|t] eqn:Ht; run_body; [eauto|].
  rewrite (parse_customer_insert_spent_none d t b) by done. run_body. eauto.
Qed.

(** ** Which answer a top-up and a spend give *)

Lemma Prim2SF_neg_infinity : Prim2SF neg_infinity = S754_infinity true.
Proof. reflexivity. Qed.

(** For an amount that is a number above minus infinity, being [<= 0] is
    the same as not being [> 0]. *)
Lemma leb_zero_ltb (x : float) :
  (neg_infinity <? x)%float = true → (x <=? 0)%float = negb (0 <? x)%float.
Proof.
  rewrite !ltb_spec, leb_spec, Prim2SF_zero, Prim2SF_neg_infinity.
  unfold SFleb, SFltb, SFcompare.
  destruct (Prim2SF x) as [s|[]| |[] m e]; try discriminate; reflexivity.
Qed.

Lemma finite_leb_zero (x : float) :
  finite x = true → (x <=? 0)%float = negb (0 <? x)%float.
Proof. intros [H _]%andb_true_iff. by apply leb_zero_ltb. Qed.

(** The answer of a top-up of a finite amount to a customer record whose
    amounts stay finite: 422 exactly when the amount is [<= 0], 404 exactly
    when it is positive and there is no document, the updated record exactly
    when it is positive and the document is there; never 500. *)
Theorem top_up_status (s : store) (id : string) (x : float) :
  finite x = true →
  (∀ d, customers s !! id = Some d →
     ∃ c, parse_customer d = Some c ∧
          finite_amounts (with_top_up c (total_top_up c + x) (balance c + x)) = true) →
  let r := (handle (PutTopUp id x) s).1.1 in
  (error_status r = Some 422 ↔ (x <=? 0)%float = true) ∧
  (error_status r = Some 404 ↔ (0 <? x)%float = true ∧ customers s !! id = None) ∧
  ((∃ c, r = Ok (Some c) ∧ finite_amounts c = true)
     ↔ (0 <? x)%float = true ∧ is_Some (customers s !! id)) ∧
  (error_status r = None ↔ (0 <? x)%float = true ∧ is_Some (customers s !! id)) ∧
  error_status r ≠ Some 500.
Proof.
  intros Hnum Hrecord. cbv zeta. rewrite (finite_leb_zero x Hnum).
  unfold handle, validate_amount.
  destruct (0 <? x)%float eqn:Hx; cbn [negb].
  - destruct (customers s !! id) as [d|] eqn:Hd.
    + destruct (Hrecord d eq_refl) as (c & Hc & Hfin).
      rewrite (top_up_run s id d c) by done. cbn [with_record fst snd error_status].
      split; [done|]. split; [split; [done|by intros [_ ?]]|].
      split; [split; [eauto|]; intros _; by eexists|].
      split; [|done]. split; [eauto|done].
    + rewrite top_up_absent by done. cbn [with_record fst snd error_status].
      split; [done|]. split; [done|].
      split; [split; [by intros (? & ? & _)|by intros [_ [? ?]]]|].
      split; [|done]. split; [done|]. by intros [_ [? ?]].
  - cbn [fst snd error_status unprocessable].
    split; [done|]. split; [split; [done|by intros [? _]]|].
    split; [split; [by intros (? & ? & _)|by intros [? _]]|].
    split; [|done]. split; [done|by intros [? _]].
Qed.

Lemma top_up_status_witness :
  error_status (handle (PutTopUp "GOD-0001" 0) store_alice).1.1 = Some 422 ∧
  error_status (handle (PutTopUp "GOD-0007" 5) store_alice).1.1 = Some 404 ∧
  error_status (handle (PutTopUp "GOD-0001" 5) store_alice).1.1 = None.
Proof.
  assert (∀ x, finite (0 + x) = true →
            ∀ id d, customers store_alice !! id = Some d →
              ∃ c, parse_customer d = Some c ∧
                   finite_amounts
                     (with_top_up c (total_top_up c + x) (balance c + x)) = true)
    as Hrecords.
  { intros x Hx id d Hd.
    change (customers store_alice)
      with ({[ "GOD-0001" := to_dict (new_record "Alice" "GOD-0001") ]}
              : gmap string (gmap string value)) in Hd.
    apply lookup_singleton_Some in Hd as [_ <-]. eexists. split; [reflexivity|].
    unfold finite_amounts. cbn [with_top_up new_record total_top_up total_spent balance].
    rewrite Hx. reflexivity. }
  split; [|split].
  - apply (top_up_status store_alice "GOD-0001" 0);
      [reflexivity|by apply Hrecords|reflexivity].
  - apply (top_up_status store_alice "GOD-0007" 5);
      [reflexivity|by apply Hrecords|split; reflexivity].
  - apply (top_up_status store_alice "GOD-0001" 5);
      [reflexivity|by apply Hrecords|].
    split; [reflexivity|]. by eexists.
Defined.

(** The answer of a spend.  The balance is compared before the record is
    looked at: a document whose balance is a number less than the amount is
    answered 400, whatever else it holds.  For a finite amount and a customer
    record whose amounts stay finite: 422 exactly when the amount is [<= 0],
    404 exactly when it is positive and there is no document, 400 exactly
    when it is positive and greater than the balance, the updated record
    exactly when it is positive and not greater than the balance; never
    500. *)
Theorem spend_status (s : store) (id : string) (x : float) :
  let r := (handle (PutSpend id x) s).1.1 in
  (∀ d b, customers s !! id = Some d → dict_get d "balance" = VNum b →
     (0 <? x)%float = true → (b <? x)%float = true →
     error_status r = Some 400) ∧
  (finite x = true →
   (∀ d, customers s !! id = Some d →
      ∃ c, parse_customer d = Some c ∧
           finite_amounts (with_spent c (total_spent c + x) (balance c - x)) = true) →
   (error_status r = Some 422 ↔ (x <=? 0)%float = true) ∧
   (error_status r = Some 404 ↔ (0 <? x)%float = true ∧ customers s !! id = None) ∧
   (error_status r = Some 400 ↔
      (0 <? x)%float = true ∧
      ∃ d c, customers s !! id = Some d ∧ parse_customer d = Some c ∧
             (balance c <? x)%float = true) ∧
   ((∃ c', r = Ok (Some c') ∧ finite_amounts c' = true) ↔
      (0 <? x)%float = true ∧
      ∃ d c, customers s !! id = Some d ∧ parse_customer d = Some c ∧
             (balance c <? x)%float = false) ∧
   (error_status r = None ↔
      (0 <? x)%float = true ∧
      ∃ d c, customers s !! id = Some d ∧ parse_customer d = Some c ∧
             (balance c <? x)%float = false) ∧
   error_status r ≠ Some 500).
Proof.
  cbv zeta. split.
  { intros d b Hd Hb Hx Hlt. unfold handle, validate_amount. rewrite Hx.
    by rewrite (spend_insufficient_raw s id d b). }
  intros Hnum Hrecord. rewrite (finite_leb_zero x Hnum).
  unfold handle, validate_amount.
  destruct (0 <? x)%float eqn:Hx; cbn [negb].
  - destruct (customers s !! id) as [d|] eqn:Hd.
    + destruct (Hrecord d eq_refl) as (c & Hc & Hfin).
      destruct (balance c <? x)%float eqn:Hlt.
      * rewrite (spend_insufficient s id d c) by done.
        cbn [with_record fst snd error_status].
        assert (¬ ∃ d' c', Some d = Some d' ∧ parse_customer d' = Some c' ∧
                           (balance c' <? x)%float = false) as Hno.
        { intros (d' & c' & [= <-] & Hc' & Hlt'). congruence. }
        split; [done|]. split; [split; [done|by intros [_ ?]]|].
        split; [split; [eauto 6|done]|].
        split; [split; [by intros (? & ? & _)|by intros [_ ?]]|].
        split; [|done]. split; [done|by intros [_ ?]].
      * rewrite (spend_run s id d c) by done.
        cbn [with_record fst snd error_status].
        split; [done|]. split; [split; [done|by intros [_ ?]]|].
        split.
        { split; [done|]. intros (_ & d' & c' & [= <-] & Hc' & Hlt'). congruence. }
        split; [split; [eauto 6|]; intros _; by eexists|].
        split; [|done]. split; [eauto 6|done].
    + rewrite spend_absent by done. cbn [with_record fst snd error_status].
      split; [done|]. split; [done|].
      split; [split; [done|by intros (_ & ? & ? & ? & _)]|].
      split; [split; [by intros (? & ? & _)|by intros (_ & ? & ? & ? & _)]|].
      split; [|done]. split; [done|by intros (_ & ? & ? & ? & _)].
  - cbn [fst snd error_status unprocessable].
    split; [done|]. split; [split; [done|by intros [? _]]|].
    split; [split; [done|by intros [? _]]|].
    split; [split; [by intros (? & ? & _)|by intros [? _]]|].
    split; [|done]. split; [done|by intros [? _]].
Qed.

Lemma spend_status_witness :
  error_status (handle (PutSpend "GOD-0001" 61) store_alice_60).1.1 = Some 400 ∧
  error_status (handle (PutSpend "GOD-0001" 60) store_alice_60).1.1 = None.
Proof.
  pose (c := {| name := "Alice"; customer_id := "GOD-0001";
                total_top_up := 100; total_spent := 40; balance := 60 |}).
  assert (customers store_alice_60 = {[ "GOD-0001" := to_dict c ]}) as Hs
    by reflexivity.
  assert (∀ x, finite (40 + x) = true → finite (60 - x) = true →
            ∀ id d, customers store_alice_60 !! id = Some d →
              ∃ c, parse_customer d = Some c ∧
                   finite_amounts
                     (with_spent c (total_spent c + x) (balance c - x)) = true)
    as Hrecords.
  { intros x Hx1 Hx2 id d Hd. rewrite Hs in Hd.
    apply lookup_singleton_Some in Hd as [_ <-]. eexists. split; [reflexivity|].
    unfold finite_amounts. cbn [with_spent c total_top_up total_spent balance].
    rewrite Hx1, Hx2. reflexivity. }
  split.
  - apply (spend_status store_alice_60 "GOD-0001" 61);
      [reflexivity|by apply Hrecords|].
    split; [reflexivity|]. exists (to_dict c), c.
    split; [by rewrite Hs|]. split; reflexivity.
  - apply (spend_status store_alice_60 "GOD-0001" 60);
      [reflexivity|by apply Hrecords|].
    split; [reflexivity|]. exists (to_dict c), c.
    split; [by rewrite Hs|]. split; reflexivity.
Defined.

(** ** Success and failure of a request *)

Lemma top_up_success (s : store) (id : string) (ta : TransactionAmount)
    (c : Customer) (s' : store) (evs : list event) :
  top_up_customer_balance id ta s = (Ok c, s', evs) →
  ∃ d c0, customers s !! id = Some d ∧ parse_customer d = Some c0 ∧
    c = with_top_up c0 (total_top_up c0 + amount ta) (balance c0 + amount ta) ∧
    s' = Store (<[id := top_up_fields (total_top_up c0 + amount ta)
                          (balance c0 + amount ta) ∪ d]> (customers s)) (counters s).
Proof.
  destruct (customers s !! id) as [d|] eqn:Hd.
  - destruct (parse_customer d) as [c0|] eqn:Hc.
    + rewrite (top_up_run s id d c0) by done. intros [= <- <- _].
      by exists d, c0.
    + destruct (top_up_malformed s id d ta Hd Hc) as [detail ->]. discriminate.
  - rewrite top_up_absent by done. discriminate.
Qed.

Lemma top_up_failure (s : store) (id : string) (ta : TransactionAmount)
    (e : exn) (s' : store) (evs : list event) :
  top_up_customer_balance id ta s = (Raise e, s', evs) →
  s' = s ∧ evs = [BeginTransaction; ReadCustomer id; RollbackTransaction].
Proof.
  destruct (customers s !! id) as [d|] eqn:Hd.
  - destruct (parse_customer d) as [c0|] eqn:Hc.
    + rewrite (top_up_run s id d c0) by done. discriminate.
    + destruct (top_up_malformed s id d ta Hd Hc) as [detail ->].
      by intros [= _ <- <-].
  - rewrite top_up_absent by done. by intros [= _ <- <-].
Qed.

(** The outcome of a spend, by cases on the document. *)
Lemma spend_outcome (s : store) (id : string) (ta : TransactionAmount) :
  (∃ e, spend_customer_balance id ta s =
          (Raise e, s, [BeginTransaction; ReadCustomer id; RollbackTransaction])) ∨
  (∃ d c0, customers s !! id = Some d ∧ parse_customer d = Some c0 ∧
     (balance c0 <? amount ta)%float = false ∧
     spend_customer_balance id ta s =
       (Ok (with_spent c0 (total_spent c0 + amount ta) (balance c0 - amount ta)),
        Store (<[id := spend_fields (total_spent c0 + amount ta)
                         (balance c0 - amount ta) ∪ d]> (customers s)) (counters s),
        [BeginTransaction; ReadCustomer id;
         CommitTransaction
           [UpdateCustomer id (spend_fields (total_spent c0 + amount ta)
                                 (balance c0 - amount ta))]])).
Proof.
  destruct (customers s !! id) as [d|] eqn:Hd;
    [|left; rewrite spend_absent by done; eauto].
  destruct (parse_customer d) as [c0|] eqn:Hc.
  - destruct (balance c0 <? amount ta)%float eqn:Hlt.
    + left. rewrite (spend_insufficient s id d c0) by done. eauto.
    + right. exists d, c0. rewrite (spend_run s id d c0) by done. auto.
  - left. destruct (dict_get d "balance") as [str|b] eqn:Hb.
    + destruct (spend_malformed s id d ta Hd Hc) as [detail ->]; [congruence|eauto].
    + destruct (b <? amount ta)%float eqn:Hlt.
      * rewrite (spend_insufficient_raw s id d b) by done. eauto.
      * destruct (spend_malformed s id d ta Hd Hc) as [detail ->]; [congruence|eauto].
Qed.

Lemma create_failure (body : CustomerBase) (s : store) (e : exn) (s' : store)
    (evs : list event) :
  create_customer body s = (Raise e, s', evs) →
  s' = s ∧
  (evs = [BeginTransaction; RollbackTransaction] ∨
   ∃ read, evs = [BeginTransaction; read; RollbackTransaction] ∧
           (read = ReadCounter counter_ref ∨ ∃ id, read = ReadCustomer id)).
Proof.
  destruct (truthy (base_customer_id body)) as [id|] eqn:Hid.
  - rewrite (create_requested body id s Hid).
    destruct (valid_path id); [|intros [= _ <- <-]; split; [done|by left]].
    destruct (customers s !! id); [|discriminate].
    intros [= _ <- <-]. split; [done|]. right. eauto.
  - rewrite (create_allocated body s Hid).
    destruct (counters s !! counter_ref) as [fields|]; [|discriminate].
    destruct (fields !! "current_value"); [discriminate|].
    intros [= _ <- <-]. split; [done|]. right. eauto.
Qed.

(** A request that answers with an error has changed nothing: the store is
    the same, no write was committed and nothing was deleted. *)
Theorem failed_request_changes_nothing (r : request) (s : store) (e : exn)
    (s' : store) (evs : list event) :
  handle r s = (Raise e, s', evs) →
  s' = s ∧ evs ≫= committed = [] ∧ ∀ id, DeleteCustomer id ∉ evs.
Proof.
  destruct r as [body|id x|id x|id]; unfold handle.
  - destruct (create_customer body s) as [[[c|e'] s1] evs1] eqn:Hrun; [discriminate|].
    intros [= _ <- <-].
    destruct (create_failure body s e' s1 evs1 Hrun)
      as (-> & [->|(read & -> & Hread)]).
    { split; [done|]. split; [reflexivity|]. intros id Hin.
      repeat (apply elem_of_cons in Hin as [Hin|Hin]; [discriminate|]);
        by apply elem_of_nil in Hin. }
    split; [done|]. split.
    + destruct Hread as [->|[id ->]]; reflexivity.
    + intros id Hin. destruct Hread as [->|[id' ->]];
        repeat (apply elem_of_cons in Hin as [Hin|Hin]; [discriminate|]);
        by apply elem_of_nil in Hin.
  - destruct (validate_amount x) as [ta|].
    + destruct (top_up_customer_balance id ta s) as [[[c|e'] s1] evs1] eqn:Hrun;
        [discriminate|].
      intros [= _ <- <-].
      destruct (top_up_failure s id ta e' s1 evs1 Hrun) as [-> ->].
      split; [done|]. split; [reflexivity|].
      intros id' Hin.
      repeat (apply elem_of_cons in Hin as [Hin|Hin]; [discriminate|]);
        by apply elem_of_nil in Hin.
    + intros [= _ <- <-]. split; [done|]. split; [reflexivity|].
      intros id' Hin. by apply elem_of_nil in Hin.
  - destruct (validate_amount x) as [ta|].
    + destruct (spend_outcome s id ta) as [[e' Hrun]|(d & c0 & _ & _ & _ & Hrun)];
        rewrite Hrun; [|discriminate].
      intros [= _ <- <-]. split; [done|]. split; [reflexivity|].
      intros id' Hin.
      repeat (apply elem_of_cons in Hin as [Hin|Hin]; [discriminate|]);
        by apply elem_of_nil in Hin.
    + intros [= _ <- <-]. split; [done|]. split; [reflexivity|].
      intros id' Hin. by apply elem_of_nil in Hin.
  - unfold delete_customer. destruct (customers s !! id); [discriminate|].
    intros [= _ <- <-]. split; [done|]. split; [reflexivity|].
    intros id' Hin.
    repeat (apply elem_of_cons in Hin as [Hin|Hin]; [discriminate|]);
      by apply elem_of_nil in Hin.
Qed.

Lemma failed_request_changes_nothing_witness :
  (handle (PutSpend "GOD-0001" 1000) store_alice_60).1.2 = store_alice_60.
Proof.
  apply (failed_request_changes_nothing (PutSpend "GOD-0001" 1000) store_alice_60
           (HTTPException 400 "Insufficient balance") _
           [BeginTransaction; ReadCustomer "GOD-0001"; RollbackTransaction]).
  reflexivity.
Defined.

(** ** Reading back *)

(** The record a successful create, top-up or spend answers is the record a
    read of that customer returns afterwards: the answer built from the
    snapshot agrees with the document the commit leaves. *)
Theorem answer_is_what_is_read (r : request) (s : store) (c : Customer)
    (s' : store) (evs : list event) :
  handle r s = (Ok (Some c), s', evs) →
  api.get_customer (target r c) s' = Ok c.
Proof.
  destruct r as [body|id x|id x|id]; unfold handle, api.get_customer; simpl.
  - destruct (create_customer body s) as [[[c1|e] s1] evs1] eqn:Hrun; [|discriminate].
    intros [= <- <- <-].
    destruct (create_ok body s c1 s1 evs1 Hrun) as (final_id & -> & -> & _).
    simpl. rewrite lookup_insert_eq.
    change (parse_customer _) with
      (parse_customer (to_dict (new_record (base_name body) final_id))).
    by rewrite parse_customer_to_dict.
  - destruct (validate_amount x) as [ta|]; [|discriminate].
    destruct (top_up_customer_balance id ta s) as [[[c1|e] s1] evs1] eqn:Hrun;
      [|discriminate].
    intros [= <- <- <-].
    destruct (top_up_success s id ta c1 s1 evs1 Hrun) as (d & c0 & Hd & Hc & -> & ->).
    simpl. rewrite lookup_insert_eq, top_up_fields_union.
    by rewrite (parse_customer_insert_top_up d c0).
  - destruct (validate_amount x) as [ta|]; [|discriminate].
    destruct (spend_outcome s id ta) as [[e Hrun]|(d & c0 & Hd & Hc & _ & Hrun)];
      rewrite Hrun; [discriminate|].
    intros [= <- <- <-].
    simpl. rewrite lookup_insert_eq, spend_fields_union.
    by rewrite (parse_customer_insert_spent d c0).
  - unfold delete_customer. destruct (customers s !! id); discriminate.
Qed.

Lemma answer_is_what_is_read_witness :
  api.get_customer "GOD-0001" (handle (PutTopUp "GOD-0001" 100) store_alice).1.2 =
    Ok {| name := "Alice"; customer_id := "GOD-0001";
          total_top_up := 100; total_spent := 0; balance := 100 |}.
Proof.
  apply (answer_is_what_is_read (PutTopUp "GOD-0001" 100) store_alice _ _
           (handle (PutTopUp "GOD-0001" 100) store_alice).2).
  reflexivity.
Defined.

(** ** Delete *)

(** Deleting an absent customer answers 404 after one read and changes
    nothing.  Deleting an existing one removes its document and nothing
    else: a read of it, and a second delete, answer 404; the other customers
    and the counters are as before, so the identifier that the next create
    is given is the one it would have been given without the delete: the
    number of a deleted customer is not handed out again. *)
Theorem delete_removes_one_document (s : store) (id : string) :
  (customers s !! id = None →
     delete_customer id s =
       (Raise (HTTPException 404 "Customer not found"), s, [ReadCustomer id])) ∧
  (∀ d, customers s !! id = Some d →
     let s' := (delete_customer id s).1.2 in
     (delete_customer id s).1.1 = Ok () ∧
     api.get_customer id s' = Raise (HTTPException 404 "Customer not found") ∧
     (delete_customer id s').1.1 = Raise (HTTPException 404 "Customer not found") ∧
     (∀ id', id' ≠ id → customers s' !! id' = customers s !! id') ∧
     counters s' = counters s ∧
     ∀ body, truthy (base_customer_id body) = None →
       (create_customer body s').1.1 = (create_customer body s).1.1).
Proof.
  unfold delete_customer. split.
  - intros ->. reflexivity.
  - intros d Hd. rewrite Hd. cbv zeta. cbn [fst snd].
    split; [reflexivity|].
    unfold api.get_customer. cbn [customers]. rewrite lookup_delete_eq.
    split; [reflexivity|]. split; [reflexivity|].
    split; [intros id' Hne; by rewrite lookup_delete_ne|].
    split; [reflexivity|].
    intros body Hid. rewrite !(create_allocated body _ Hid). cbn [counters].
    destruct (counters s !! counter_ref) as [fields|]; [|reflexivity].
    destruct (fields !! "current_value"); reflexivity.
Qed.

Lemma delete_removes_one_document_witness :
  api.get_customer "GOD-0001" (delete_customer "GOD-0001" store_alice_60).1.2
    = Raise (HTTPException 404 "Customer not found") ∧
  (create_customer bob (delete_customer "GOD-0001" store_alice_60).1.2).1.1
    = Ok (new_record "Bob" "GOD-0002").
Proof.
  destruct (delete_removes_one_document store_alice_60 "GOD-0001") as [_ H].
  destruct (H (to_dict {| name := "Alice"; customer_id := "GOD-0001";
                          total_top_up := 100; total_spent := 40; balance := 60 |}))
    as (_ & Hget & _ & _ & _ & Hcreate); [reflexivity|].
  split; [exact Hget|].
  rewrite (Hcreate bob) by reflexivity. reflexivity.
Defined.

(** ** Allocated identifiers that are already taken *)

(** A create without a requested identifier never looks at the customer
    document it is about to write: it reads no customer document and never
    answers 409, and when a document already sits at the allocated
    identifier it is replaced by the new record, with its amounts at zero. *)
Theorem allocated_identifier_overwrites (body : CustomerBase) (s : store) :
  truthy (base_customer_id body) = None →
  (∀ id, (create_customer body s).1.1 ≠ already_exists id) ∧
  (∀ id, ReadCustomer id ∉ (create_customer body s).2) ∧
  (∀ fields current old,
     counters s !! counter_ref = Some fields →
     fields !! "current_value" = Some current →
     customers s !! ("GOD-" +:+ format_04d (current + 1)) = Some old →
     let c := new_record (base_name body) ("GOD-" +:+ format_04d (current + 1)) in
     (create_customer body s).1.1 = Ok c ∧
     api.get_customer (customer_id c) (create_customer body s).1.2 = Ok c) ∧
  (∀ old,
     counters s !! counter_ref = None →
     customers s !! "GOD-0001" = Some old →
     let c := new_record (base_name body) "GOD-0001" in
     (create_customer body s).1.1 = Ok c ∧
     api.get_customer "GOD-0001" (create_customer body s).1.2 = Ok c).
Proof.
  intros Hid. rewrite (create_allocated body s Hid).
  split; [|split; [|split]].
  - intros id. destruct (counters s !! counter_ref) as [fields|]; [|discriminate].
    destruct (fields !! "current_value"); discriminate.
  - intros id Hin.
    destruct (counters s !! counter_ref) as [fields|];
      [destruct (fields !! "current_value")|]; cbn [snd] in Hin;
      repeat (apply elem_of_cons in Hin as [Hin|Hin]; [discriminate|]);
      by apply elem_of_nil in Hin.
  - intros fields current old -> -> _. cbv zeta. cbn [fst snd customers customer_id new_record].
    split; [reflexivity|].
    unfold api.get_customer. cbn [customers]. rewrite lookup_insert_eq.
    change (parse_customer _) with
      (parse_customer (to_dict (new_record (base_name body)
                                  ("GOD-" +:+ format_04d (current + 1))))).
    by rewrite parse_customer_to_dict.
  - intros old -> _. cbv zeta. cbn [fst snd customers customer_id new_record].
    split; [reflexivity|].
    unfold api.get_customer. cbn [customers].
    change ("GOD-" +:+ format_04d 1) with "GOD-0001". rewrite lookup_insert_eq.
    change (parse_customer _) with
      (parse_customer (to_dict (new_record (base_name body) "GOD-0001"))).
    by rewrite parse_customer_to_dict.
Qed.

Lemma allocated_identifier_overwrites_witness :
  api.get_customer "GOD-0001" store_carol =
    Ok {| name := "Carol"; customer_id := "GOD-0001";
          total_top_up := 100; total_spent := 0; balance := 100 |} ∧
  api.get_customer "GOD-0001" (create_customer alice store_carol).1.2 =
    Ok (new_record "Alice" "GOD-0001").
Proof.
  split; [reflexivity|].
  destruct (allocated_identifier_overwrites alice store_carol eq_refl)
    as (_ & _ & _ & Hnone).
  apply (Hnone (to_dict {| name := "Carol"; customer_id := "GOD-0001";
                           total_top_up := 100; total_spent := 0; balance := 100 |}));
    reflexivity.
Defined.

(** ** What a request does to the customers *)

Lemma validate_amount_positive (x : float) (ta : TransactionAmount) :
  validate_amount x = Some ta → amount ta = x ∧ (0 <? x)%float = true.
Proof.
  unfold validate_amount. destruct (0 <? x)%float; [|discriminate].
  by intros [= <-].
Qed.

(** A request leaves the customers as they are, or writes one new record,
    or replaces one record by its topped-up or spent version, or removes one
    document. *)
Lemma handle_customers (r : request) (s : store) :
  customers (handle r s).1.2 = customers s ∨
  (∃ body final_id, r = PostCustomers body ∧
     customers (handle r s).1.2 =
       <[final_id := to_dict (new_record (base_name body) final_id)]> (customers s)) ∨
  (∃ id x d c0 d', r = PutTopUp id x ∧ (0 <? x)%float = true ∧
     customers s !! id = Some d ∧ parse_customer d = Some c0 ∧
     customers (handle r s).1.2 = <[id := d']> (customers s) ∧
     parse_customer d' =
       Some (with_top_up c0 (total_top_up c0 + x) (balance c0 + x))) ∨
  (∃ id x d c0 d', r = PutSpend id x ∧ (0 <? x)%float = true ∧
     customers s !! id = Some d ∧ parse_customer d = Some c0 ∧
     (balance c0 <? x)%float = false ∧
     customers (handle r s).1.2 = <[id := d']> (customers s) ∧
     parse_customer d' =
       Some (with_spent c0 (total_spent c0 + x) (balance c0 - x))) ∨
  (∃ id, r = DeleteCustomers id ∧
     customers (handle r s).1.2 = delete id (customers s)).
Proof.
  destruct r as [body|id x|id x|id]; unfold handle.
  - destruct (create_customer body s) as [[[c|e] s1] evs1] eqn:Hrun.
    + destruct (create_ok body s c s1 evs1 Hrun) as (final_id & -> & Hs & _).
      right; left. exists body, final_id. split; [done|]. exact Hs.
    + destruct (create_failure body s e s1 evs1 Hrun) as [-> _]. by left.
  - destruct (validate_amount x) as [ta|] eqn:Hx; [|by left].
    apply validate_amount_positive in Hx as [Hta Hx].
    destruct (top_up_customer_balance id ta s) as [[[c|e] s1] evs1] eqn:Hrun.
    + destruct (top_up_success s id ta c s1 evs1 Hrun) as (d & c0 & Hd & Hc & -> & ->).
      right; right; left. rewrite Hta.
      exists id, x, d, c0. eexists. split; [done|]. split; [done|].
      split; [done|]. split; [done|]. split; [reflexivity|].
      rewrite top_up_fields_union. by apply parse_customer_insert_top_up.
    + destruct (top_up_failure s id ta e s1 evs1 Hrun) as [-> _]. by left.
  - destruct (validate_amount x) as [ta|] eqn:Hx; [|by left].
    apply validate_amount_positive in Hx as [Hta Hx].
    destruct (spend_outcome s id ta) as [[e Hrun]|(d & c0 & Hd & Hc & Hlt & Hrun)];
      rewrite Hrun; [by left|].
    right; right; right; left. rewrite Hta in *.
    exists id, x, d, c0. eexists. split; [done|]. split; [done|].
    split; [done|]. split; [done|]. split; [done|]. split; [reflexivity|].
    rewrite spend_fields_union. by apply parse_customer_insert_spent.
  - unfold delete_customer. destruct (customers s !! id); [|by left].
    right; right; right; right. by exists id.
Qed.

(** ** Listing *)

Lemma collect_mapM (docs : list (string * gmap string value)) (acc : list Customer) :
  api.collect docs acc =
    match mapM (λ doc, parse_customer doc.2) docs with
    | Some l => Ok (acc ++ l)
    | None => Raise ValidationError
    end.
Proof.
  revert acc. induction docs as [|doc docs IH]; intros acc; simpl.
  - by rewrite app_nil_r.
  - destruct (parse_customer doc.2) as [c|]; simpl; [|done].
    rewrite IH. destruct (mapM _ docs); simpl; [|done].
    by rewrite <- app_assoc.
Qed.

Lemma elem_of_stream (s : store) (id : string) (d : gmap string value) :
  (id, d) ∈ api.stream s ↔ customers s !! id = Some d ∧ direct_child id = true.
Proof.
  unfold api.stream. rewrite list_elem_of_filter, elem_of_map_to_list. simpl.
  rewrite Is_true_true. tauto.
Qed.

(** The listing holds the documents that lie directly in the collection.
    When each of them is a customer record with finite amounts it succeeds,
    with one record per document, and a record is listed exactly when one of
    these documents holds it.  A single document without a name, or with a
    field ["id"], makes it answer 500 and hides all customers. *)
Theorem listing_needs_every_document (s : store) :
  ((∀ id d, customers s !! id = Some d → direct_child id = true →
      ∃ c, parse_customer d = Some c ∧ finite_amounts c = true) →
   ∃ l, api.get_all_customers s = Ok l ∧
     length l = length (api.stream s) ∧
     (∀ c, c ∈ l ↔ ∃ id d, customers s !! id = Some d ∧ direct_child id = true ∧
                           parse_customer d = Some c) ∧
     Forall (λ c, finite_amounts c = true) l) ∧
  (∀ id d, customers s !! id = Some d → direct_child id = true →
     d !! "name" = None ∨ is_Some (d !! "id") →
     error_status (api.get_all_customers s) = Some 500).
Proof.
  unfold api.get_all_customers. rewrite collect_mapM.
  destruct (mapM _ (api.stream s)) as [l|] eqn:Hl; simpl.
  - apply mapM_Some in Hl.
    assert (∀ id d, customers s !! id = Some d → direct_child id = true →
              ∃ c, parse_customer d = Some c ∧ c ∈ l) as Hall.
    { intros id d Hd Hdirect.
      assert ((id, d) ∈ api.stream s) as Hin by (by apply elem_of_stream).
      apply list_elem_of_lookup in Hin as [i Hi].
      destruct (Forall2_lookup_l _ _ _ _ _ Hl Hi) as (c & Hc & Hp).
      exists c. split; [exact Hp|]. by eapply list_elem_of_lookup_2. }
    assert (∀ c, c ∈ l → ∃ id d, customers s !! id = Some d ∧
              direct_child id = true ∧ parse_customer d = Some c) as Hback.
    { intros c Hin. apply list_elem_of_lookup in Hin as [i Hi].
      destruct (Forall2_lookup_r _ _ _ _ _ Hl Hi) as ([id d] & Hd & Hp).
      apply list_elem_of_lookup_2, elem_of_stream in Hd as [Hd Hdirect].
      by exists id, d. }
    split.
    + intros Hrecords. exists l. split; [done|]. split.
      { symmetry. by eapply Forall2_length. }
      split.
      * intros c. split; [apply Hback|].
        intros (id & d & Hd & Hdirect & Hc).
        destruct (Hall id d Hd Hdirect) as (c' & Hc' & Hin). congruence.
      * apply Forall_forall. intros c Hin.
        destruct (Hback c Hin) as (id & d & Hd & Hdirect & Hc).
        destruct (Hrecords id d Hd Hdirect) as (c' & Hc' & Hfin). congruence.
    + intros id d Hd Hdirect Hbad.
      destruct (Hall id d Hd Hdirect) as (c & Hc & _). exfalso.
      revert Hc. unfold parse_customer, str_field.
      destruct Hbad as [->|[v ->]]; [|done]. by destruct (d !! "id").
  - split; [|done]. intros Hall.
    apply mapM_None in Hl. apply Exists_exists in Hl as ([id d] & Hin & Hnone).
    apply elem_of_stream in Hin as [Hd Hdirect].
    destruct (Hall id d Hd Hdirect) as (c & Hc & _). simpl in Hnone. congruence.
Qed.

Lemma listing_needs_every_document_witness :
  ∃ l, api.get_all_customers (serve [PostCustomers alice; PostCustomers bob] empty_store)
         = Ok l ∧ length l = 2%nat.
Proof.
  pose (docs := ({[ "GOD-0001" := to_dict (new_record "Alice" "GOD-0001");
                    "GOD-0002" := to_dict (new_record "Bob" "GOD-0002") ]}
                  : gmap string (gmap string value))).
  assert (customers (serve [PostCustomers alice; PostCustomers bob] empty_store) = docs)
    as Hs by reflexivity.
  destruct (listing_needs_every_document
              (serve [PostCustomers alice; PostCustomers bob] empty_store))
    as [Hlist _].
  destruct Hlist as (l & Hl & Hlen & _).
  { intros id d Hd _. rewrite Hs in Hd. unfold docs in Hd.
    apply lookup_insert_Some in Hd as [[_ <-]|[_ Hd]]; [by eexists|].
    apply lookup_singleton_Some in Hd as [_ <-]. by eexists. }
  exists l. split; [exact Hl|]. rewrite Hlen. reflexivity.
Defined.

(** ** Invariants of the store *)

Lemma handle_well_formed (r : request) (s : store) :
  well_formed s → well_formed (handle r s).1.2.
Proof.
  intros Hwf id d.
  destruct (handle_customers r s)
    as [->|[(body & final_id & _ & ->)|[(id0 & x & d0 & c0 & d' & _ & _ & Hd0 & Hc0 & -> & Hd')
       |[(id0 & x & d0 & c0 & d' & _ & _ & Hd0 & Hc0 & _ & -> & Hd')|(id0 & _ & ->)]]]].
  - apply Hwf.
  - destruct (decide (id = final_id)) as [->|Hne].
    + rewrite lookup_insert_eq. intros [= <-].
      eexists. split; [apply parse_customer_to_dict|reflexivity].
    + rewrite lookup_insert_ne by done. apply Hwf.
  - destruct (decide (id = id0)) as [->|Hne].
    + rewrite lookup_insert_eq. intros [= <-].
      destruct (Hwf id0 d0 Hd0) as (c & Hc & Hid).
      eexists. split; [exact Hd'|]. simpl. congruence.
    + rewrite lookup_insert_ne by done. apply Hwf.
  - destruct (decide (id = id0)) as [->|Hne].
    + rewrite lookup_insert_eq. intros [= <-].
      destruct (Hwf id0 d0 Hd0) as (c & Hc & Hid).
      eexists. split; [exact Hd'|]. simpl. congruence.
    + rewrite lookup_insert_ne by done. apply Hwf.
  - intros Hd. apply lookup_delete_Some in Hd as [_ Hd]. by apply Hwf.
Qed.

(** Whatever requests are served, a store in which every document is a
    customer record filed under its own identifier stays so: a read of an
    identifier answers 404 or a record that carries that identifier, and the
    listing succeeds.  The empty store is such a store. *)
Theorem documents_stay_well_formed (rs : list request) (s : store) :
  well_formed s →
  well_formed (serve rs s) ∧
  (∀ id, api.get_customer id (serve rs s)
           = Raise (HTTPException 404 "Customer not found") ∨
         ∃ c, api.get_customer id (serve rs s) = Ok c ∧ customer_id c = id) ∧
  ∃ l, api.get_all_customers (serve rs s) = Ok l.
Proof.
  intros Hwf.
  assert (well_formed (serve rs s)) as Hwf'.
  { revert s Hwf. induction rs as [|r rs IH]; intros s Hwf; [exact Hwf|].
    simpl. apply IH. by apply handle_well_formed. }
  split; [exact Hwf'|]. split.
  - intros id. unfold api.get_customer.
    destruct (customers (serve rs s) !! id) as [d|] eqn:Hd; [|by left].
    destruct (Hwf' id d Hd) as (c & -> & Hid). right. by exists c.
  - unfold api.get_all_customers. rewrite collect_mapM.
    destruct (mapM _ (api.stream (serve rs s))) as [l|] eqn:Hl; [by exists l|].
    apply mapM_None in Hl. apply Exists_exists in Hl as ([id d] & Hin & Hnone).
    apply elem_of_stream in Hin as [Hin _].
    destruct (Hwf' id d Hin) as (c & Hc & _). simpl in Hnone. congruence.
Qed.

Lemma documents_stay_well_formed_witness :
  ∃ l, api.get_all_customers
         (serve [PostCustomers alice; PostCustomers carol; PutTopUp "GOD-0001" 5;
                 DeleteCustomers "GOD-0002"; PostCustomers bob] empty_store) = Ok l.
Proof.
  apply (documents_stay_well_formed
           [PostCustomers alice; PostCustomers carol; PutTopUp "GOD-0001" 5;
            DeleteCustomers "GOD-0002"; PostCustomers bob] empty_store).
  intros id d Hd. change (customers empty_store) with (∅ : gmap string (gmap string value)) in Hd.
  by apply lookup_empty_Some in Hd.
Defined.

Lemma handle_store_nonneg (r : request) (s : store) :
  finite_spend r → store_nonneg s → store_nonneg (handle r s).1.2.
Proof.
  intros Hfin Hnn id d.
  destruct (handle_customers r s)
    as [->|[(body & final_id & _ & ->)|[(id0 & x & d0 & c0 & d' & _ & Hx & Hd0 & Hc0 & -> & Hd')
       |[(id0 & x & d0 & c0 & d' & -> & Hx & Hd0 & Hc0 & Hlt & -> & Hd')|(id0 & _ & ->)]]]].
  - apply Hnn.
  - destruct (decide (id = final_id)) as [->|Hne].
    + rewrite lookup_insert_eq. intros [= <-].
      eexists. split; [apply parse_customer_to_dict|]. repeat split; reflexivity.
    + rewrite lookup_insert_ne by done. apply Hnn.
  - destruct (decide (id = id0)) as [->|Hne].
    + rewrite lookup_insert_eq. intros [= <-].
      destruct (Hnn id0 d0 Hd0) as (c & Hc & Htu & Hts & Hb).
      assert (c = c0) as -> by congruence.
      eexists. split; [exact Hd'|]. repeat split; simpl; auto using add_nonneg.
    + rewrite lookup_insert_ne by done. apply Hnn.
  - destruct (decide (id = id0)) as [->|Hne].
    + rewrite lookup_insert_eq. intros [= <-].
      destruct (Hnn id0 d0 Hd0) as (c & Hc & Htu & Hts & Hb).
      assert (c = c0) as -> by congruence.
      eexists. split; [exact Hd'|].
      repeat split; simpl; auto using add_nonneg, sub_nonneg.
    + rewrite lookup_insert_ne by done. apply Hnn.
  - intros Hd. apply lookup_delete_Some in Hd as [_ Hd]. exact (Hnn id d Hd).
Qed.

(** As long as no spend asks for an infinite amount, the three amounts of
    every customer stay [>= 0], whatever requests are served: no balance
    turns negative or NaN.  The empty store is where this starts. *)
Theorem amounts_stay_nonneg (rs : list request) (s : store) :
  Forall finite_spend rs →
  store_nonneg s →
  store_nonneg (serve rs s) ∧
  ∀ id c, api.get_customer id (serve rs s) = Ok c → amounts_nonneg c.
Proof.
  intros Hfin Hnn.
  assert (store_nonneg (serve rs s)) as Hnn'.
  { revert s Hnn. induction Hfin as [|r rs Hr Hrs IH]; intros s Hnn; [exact Hnn|].
    simpl. apply IH. by apply handle_store_nonneg. }
  split; [exact Hnn'|].
  intros id c. unfold api.get_customer.
  destruct (customers (serve rs s) !! id) as [d|] eqn:Hd; [|discriminate].
  destruct (Hnn' id d Hd) as (c' & -> & Hc'). by intros [= <-].
Qed.

Lemma amounts_stay_nonneg_witness :
  ∃ c, api.get_customer "GOD-0001"
         (serve [PostCustomers alice; PutTopUp "GOD-0001" 0x1p1023;
                 PutTopUp "GOD-0001" 0x1p1023; PutSpend "GOD-0001" 5] empty_store) = Ok c ∧
       balance c = infinity ∧ amounts_nonneg c.
Proof.
  eexists. split; [reflexivity|]. split; [reflexivity|].
  apply (amounts_stay_nonneg
           [PostCustomers alice; PutTopUp "GOD-0001" 0x1p1023; PutTopUp "GOD-0001" 0x1p1023;
            PutSpend "GOD-0001" 5] empty_store) with "GOD-0001".
  - repeat constructor.
  - intros id d Hd.
    change (customers empty_store) with (∅ : gmap string (gmap string value)) in Hd.
    by apply lookup_empty_Some in Hd.
  - reflexivity.
Defined.

(** ** Infinite amounts and NaN *)

Lemma add_infinity (b : float) :
  (0 <=? b)%float = true → (b + infinity)%float = infinity.
Proof.
  rewrite leb_zero_shape. intros Hb. apply Prim2SF_inj.
  rewrite add_spec, Prim2SF_infinity. unfold SF64add.
  destruct Hb as [[]| |m e]; reflexivity.
Qed.

Lemma Prim2SF_nan : Prim2SF nan = S754_nan.
Proof. reflexivity. Qed.

Lemma nan_ltb (x : float) : (nan <? x)%float = false.
Proof. rewrite ltb_spec, Prim2SF_nan. reflexivity. Qed.

Lemma nan_sub (x : float) : (nan - x)%float = nan.
Proof. apply Prim2SF_inj. rewrite sub_spec, Prim2SF_nan. reflexivity. Qed.

(** The validation lets an infinite amount through.  On a customer whose
    balance is [>= 0], a top-up of infinity makes the balance infinite; a
    spend of infinity is then not refused and stores NaN as the balance,
    which is not [>= 0]; and from then on no spend is refused for
    insufficient balance, whatever its amount, and the balance stays NaN. *)
Theorem infinite_amounts_spoil_the_balance (s : store) (id : string)
    (d : gmap string value) (c : Customer) :
  customers s !! id = Some d →
  parse_customer d = Some c →
  (0 <=? balance c)%float = true →
  let s1 := (handle (PutTopUp id infinity) s).1.2 in
  let s2 := (handle (PutSpend id infinity) s1).1.2 in
  (∃ c1, api.get_customer id s1 = Ok c1 ∧ balance c1 = infinity) ∧
  (∃ c2, (handle (PutSpend id infinity) s1).1.1 = Ok (Some c2) ∧
         api.get_customer id s2 = Ok c2 ∧
         balance c2 = nan ∧ balance_nonneg c2 = false) ∧
  (∀ x, (0 <? x)%float = true →
     ∃ c3, (handle (PutSpend id x) s2).1.1 = Ok (Some c3) ∧ balance c3 = nan).
Proof.
  intros Hd Hc Hb. cbv zeta.
  set (c1 := with_top_up c (total_top_up c + infinity) infinity).
  set (d1 := top_up_fields (total_top_up c + infinity) infinity ∪ d).
  set (s1 := Store (<[id := d1]> (customers s)) (counters s)).
  assert (∃ evs, handle (PutTopUp id infinity) s = (Ok (Some c1), s1, evs)) as [evs1 H1].
  { eexists. unfold handle.
    change (validate_amount infinity) with (Some {| amount := infinity |}).
    cbv beta iota. rewrite (top_up_run s id d c) by done.
    cbn [with_record amount]. rewrite (add_infinity _ Hb). reflexivity. }
  rewrite H1. cbn [fst snd].
  assert (customers s1 !! id = Some d1) as Hd1 by apply lookup_insert_eq.
  assert (parse_customer d1 = Some c1) as Hc1.
  { unfold d1. rewrite top_up_fields_union. by apply parse_customer_insert_top_up. }
  set (c2 := with_spent c1 (total_spent c1 + infinity) nan).
  set (d2 := spend_fields (total_spent c1 + infinity) nan ∪ d1).
  set (s2 := Store (<[id := d2]> (customers s1)) (counters s1)).
  assert (∃ evs, handle (PutSpend id infinity) s1 = (Ok (Some c2), s2, evs)) as [evs2 H2].
  { eexists. unfold handle.
    change (validate_amount infinity) with (Some {| amount := infinity |}).
    cbv beta iota. rewrite (spend_run s1 id d1 c1) by done.
    cbn [with_record amount]. reflexivity. }
  rewrite H2. cbn [fst snd].
  assert (customers s2 !! id = Some d2) as Hd2 by apply lookup_insert_eq.
  assert (parse_customer d2 = Some c2) as Hc2.
  { unfold d2. rewrite spend_fields_union. by apply parse_customer_insert_spent. }
  split.
  { exists c1. split; [|reflexivity].
    unfold api.get_customer. by rewrite Hd1, Hc1. }
  split.
  { exists c2. split; [reflexivity|]. split; [|split; reflexivity].
    unfold api.get_customer. by rewrite Hd2, Hc2. }
  intros x Hx. unfold handle, validate_amount. rewrite Hx.
  rewrite (spend_run s2 id d2 c2) by (try done; apply nan_ltb).
  cbn [with_record fst snd amount]. eexists. split; [reflexivity|].
  apply nan_sub.
Qed.

Lemma infinite_amounts_spoil_the_balance_witness :
  ∃ c2, api.get_customer "GOD-0001"
          (serve [PutTopUp "GOD-0001" infinity; PutSpend "GOD-0001" infinity]
             store_alice) = Ok c2 ∧
        balance c2 = nan.
Proof.
  destruct (infinite_amounts_spoil_the_balance store_alice "GOD-0001"
              (to_dict (new_record "Alice" "GOD-0001")) (new_record "Alice" "GOD-0001")
              eq_refl eq_refl eq_refl) as (_ & (c2 & _ & Hget & Hnan & _) & _).
  exists c2. split; [exact Hget|exact Hnan].
Defined.

(** ** Identifiers are not handed out twice *)

Lemma counter_never_decreases (rs : list request) (s : store) :
  counter_value s <= counter_value (serve rs s).
Proof.
  revert s. induction rs as [|r rs IH]; intros s; simpl; [lia|].
  specialize (IH (handle r s).1.2).
  destruct (handle_allocation r s) as [[_ Hc]|[_ Hc]]; lia.
Qed.

(** An identifier the allocator has handed out is never handed out again:
    when a create without a requested identifier succeeds, and another one
    succeeds after any number of further requests, their identifiers
    differ. *)
Theorem allocated_identifier_not_reused (body1 body2 : CustomerBase)
    (rs : list request) (s : store) (c1 c2 : Customer) :
  0 <= counter_value s →
  truthy (base_customer_id body1) = None →
  truthy (base_customer_id body2) = None →
  (create_customer body1 s).1.1 = Ok c1 →
  (create_customer body2 (serve rs (create_customer body1 s).1.2)).1.1 = Ok c2 →
  customer_id c1 ≠ customer_id c2.
Proof.
  intros Hpos Hid1 Hid2 H1 H2.
  destruct (create_customer body1 s) as [[r1 s1] evs1] eqn:Hrun1.
  cbn [fst snd] in *. subst r1.
  destruct (create_ok body1 s c1 s1 evs1 Hrun1)
    as (id1 & -> & _ & [(Hsome & _)|(_ & -> & Hc1 & _)]); [congruence|].
  destruct (create_customer body2 (serve rs s1)) as [[r2 s2] evs2] eqn:Hrun2.
  cbn [fst snd] in *. subst r2.
  destruct (create_ok body2 (serve rs s1) c2 s2 evs2 Hrun2)
    as (id2 & -> & _ & [(Hsome & _)|(_ & -> & _ & _)]); [congruence|].
  pose proof (counter_never_decreases rs s1) as Hmono.
  simpl. intros [= Heq]. apply format_04d_inj in Heq; lia.
Qed.

Lemma allocated_identifier_not_reused_witness :
  "GOD-0001" ≠ "GOD-0002".
Proof.
  apply (allocated_identifier_not_reused alice bob
           [PutTopUp "GOD-0001" 5; DeleteCustomers "GOD-0001"] empty_store
           (new_record "Alice" "GOD-0001") (new_record "Bob" "GOD-0002"));
    [reflexivity..].
Defined.
